(** * Loan, DCB and deposit calculators: the arithmetic core

    The three pages of the application (the term-loan calculator, the
    Demand / Collection / Balance calculator and the term-deposit
    calculator) each compute their figures inside one event handler.
    This development embeds those handlers and states the properties of
    the amortization schedule, of the DCB aggregates and of the deposit
    figures.

    Numbers.  A JavaScript [number] is modelled by [JS.number]: an exact
    rational, or one of the three special values [+Infinity],
    [-Infinity] and [NaN], with the IEEE-754 rules for how the special
    values arise (division by zero, [Infinity - Infinity], ...) and
    propagate.  Rounding of finite results is left out: a finite result
    is the exact rational.  Zero is unsigned and behaves as [+0], which
    is what [x - x] evaluates to.  Where rounding decides the outcome,
    the loan page is embedded once more over the binary64 numbers
    themselves ([Binary64]).

    Library code.  [Math.pow] and the three [date-fns] functions the
    handlers call are not part of the sources; they are interfaces
    ([MathLib], [DateFns]) with one instance each. *)

From Stdlib Require Import ZArith QArith Qcanon Qcabs List String Bool Lia Lqa.
From Stdlib Require PrimFloat.
Import ListNotations.

Local Open Scope Z_scope.

(* ------------------------------------------------------------------ *)
(** ** Numbers *)

Module JS.

Inductive number : Type :=
| Fin (q : Qc)
| PInf
| NInf
| NaN.

Definition ofZ (z : Z) : number := Fin (Q2Qc (inject_Z z)).

Definition ofQ (q : Q) : number := Fin (Q2Qc q).

Definition neg (a : number) : number :=
  match a with
  | Fin x => Fin (- x)%Qc
  | PInf => NInf
  | NInf => PInf
  | NaN => NaN
  end.

Definition add (a b : number) : number :=
  match a, b with
  | NaN, _ | _, NaN => NaN
  | Fin x, Fin y => Fin (x + y)%Qc
  | PInf, NInf | NInf, PInf => NaN
  | PInf, _ | _, PInf => PInf
  | NInf, _ | _, NInf => NInf
  end.

Definition sub (a b : number) : number := add a (neg b).

(** The sign of [x] selects among the three outcomes of a product or a
    quotient that involves an infinity or a zero divisor. *)
Definition by_sign (x : Qc) (neg_case zero_case pos_case : number) : number :=
  match (x ?= Q2Qc 0)%Qc with
  | Lt => neg_case
  | Eq => zero_case
  | Gt => pos_case
  end.

Definition mul (a b : number) : number :=
  match a, b with
  | NaN, _ | _, NaN => NaN
  | Fin x, Fin y => Fin (x * y)%Qc
  | Fin x, PInf | PInf, Fin x => by_sign x NInf NaN PInf
  | Fin x, NInf | NInf, Fin x => by_sign x PInf NaN NInf
  | PInf, PInf | NInf, NInf => PInf
  | PInf, NInf | NInf, PInf => NInf
  end.

Definition div (a b : number) : number :=
  match a, b with
  | NaN, _ | _, NaN => NaN
  | Fin x, Fin y =>
      by_sign y (Fin (x / y)%Qc) (by_sign x NInf NaN PInf) (Fin (x / y)%Qc)
  | Fin _, PInf | Fin _, NInf => Fin (Q2Qc 0)
  | PInf, Fin y => by_sign y NInf PInf PInf
  | NInf, Fin y => by_sign y PInf NInf NInf
  | PInf, PInf | PInf, NInf | NInf, PInf | NInf, NInf => NaN
  end.

(** [a < b], [a <= b], [a > b] and [a !== b]; every comparison with
    [NaN] but [!==] is false. *)
Definition lt (a b : number) : bool :=
  match a, b with
  | NaN, _ | _, NaN => false
  | Fin x, Fin y => match (x ?= y)%Qc with Lt => true | _ => false end
  | NInf, Fin _ | NInf, PInf | Fin _, PInf => true
  | _, _ => false
  end.

Definition le (a b : number) : bool :=
  match a, b with
  | NaN, _ | _, NaN => false
  | Fin x, Fin y => match (x ?= y)%Qc with Gt => false | _ => true end
  | NInf, _ | _, PInf => true
  | _, _ => false
  end.

Definition gt (a b : number) : bool := lt b a.

Definition strict_ne (a b : number) : bool :=
  match a, b with
  | NaN, _ | _, NaN => true
  | Fin x, Fin y => negb (Qc_eq_bool x y)
  | PInf, PInf | NInf, NInf => false
  | _, _ => true
  end.

(** Truthiness of a number: [NaN] and zero are falsy. *)
Definition truthy (a : number) : bool :=
  match a with
  | NaN => false
  | Fin x => negb (Qc_eq_bool x (Q2Qc 0))
  | _ => true
  end.

(** [a || 0] *)
Definition orZero (a : number) : number :=
  if truthy a then a else ofZ 0.

(** [Math.max(a, b)] *)
Definition Math_max (a b : number) : number :=
  match a, b with
  | NaN, _ | _, NaN => NaN
  | _, _ => if lt a b then b else a
  end.

Definition isFinite (a : number) : bool :=
  match a with Fin _ => true | _ => false end.

(** Decidable equality of numbers, for evaluating closed statements. *)
Definition eqb (a b : number) : bool :=
  match a, b with
  | Fin x, Fin y => Qc_eq_bool x y
  | PInf, PInf | NInf, NInf | NaN, NaN => true
  | _, _ => false
  end.

(** The exact value of [Math.pow] at a finite base and an integer
    exponent. *)
Definition powZ (x : Qc) (k : Z) : number :=
  if k <? 0 then div (ofZ 1) (Fin (x ^ Z.to_nat (- k))%Qc)
  else Fin (x ^ Z.to_nat k)%Qc.

End JS.

Import JS.

Declare Scope js_scope.
Delimit Scope js_scope with js.
Bind Scope js_scope with number.
Infix "+" := add : js_scope.
Infix "-" := sub : js_scope.
Infix "*" := mul : js_scope.
Infix "/" := div : js_scope.
Infix "<" := lt : js_scope.
Infix "<=" := le : js_scope.
Infix ">" := gt : js_scope.
Coercion ofZ : Z >-> number.

(* ------------------------------------------------------------------ *)
(** ** Library interfaces *)

(** [Math.pow].  ECMAScript leaves its value implementation-approximated;
    the interface fixes it where the exact result is rational: at a
    finite base and an integer exponent. *)
Class MathLib : Type := {
  Math_pow : number -> number -> number;
  Math_pow_integer : forall (x : Qc) (k : Z), Math_pow (Fin x) (ofZ k) = powZ x k
}.

(** The [date-fns] functions used by the handlers, and [<=] on [Date]
    objects. *)
Class DateFns : Type := {
  Date : Type;
  addMonths : Date -> Z -> Date;
  differenceInDays : Date -> Date -> Z;
  date_le : Date -> Date -> bool
}.

(* ------------------------------------------------------------------ *)
(** ** Instances of the library interfaces *)

(** [Math.pow] wherever ECMAScript fixes its value or the exact value is
    rational.  At a positive finite base and a finite exponent that is
    not an integer the exact value is irrational in general and has no
    representative in [number]; this instance returns [NaN] there, and
    no statement below evaluates it at such arguments. *)
Module ExactPow.

Definition is_integer (y : Qc) : bool := Pos.eqb (Qden (this y)) 1.

Definition is_odd_integer (y : Qc) : bool :=
  is_integer y && Z.odd (Qnum (this y)).

Definition abs_vs_one (x : Qc) : comparison := (Qcabs x ?= Q2Qc 1)%Qc.

Definition pow (b e : number) : number :=
  match e with
  | NaN => NaN
  | Fin y =>
      if Qc_eq_bool y (Q2Qc 0) then ofZ 1
      else
        match b with
        | NaN => NaN
        | Fin x => if is_integer y then powZ x (Qnum (this y)) else NaN
        | PInf => by_sign y (ofZ 0) (ofZ 1) PInf
        | NInf =>
            by_sign y (ofZ 0) (ofZ 1) (if is_odd_integer y then NInf else PInf)
        end
  | PInf =>
      match b with
      | NaN => NaN
      | Fin x =>
          match abs_vs_one x with Gt => PInf | Eq => NaN | Lt => ofZ 0 end
      | _ => PInf
      end
  | NInf =>
      match b with
      | NaN => NaN
      | Fin x =>
          match abs_vs_one x with Gt => ofZ 0 | Eq => NaN | Lt => PInf end
      | _ => ofZ 0
      end
  end.

End ExactPow.

(** Calendar dates at local midnight, which is what the date fields of
    the pages hold. *)
Module Calendar.

(** [month] counts from 0, as [getMonth] does. *)
Record date : Type := mkDate { year : Z; month : Z; day : Z }.

Definition is_leap (y : Z) : bool :=
  ((y mod 4 =? 0) && negb (y mod 100 =? 0)) || (y mod 400 =? 0).

Definition daysInMonth (y m : Z) : Z :=
  if m =? 1 then (if is_leap y then 29 else 28)
  else if (m =? 3) || (m =? 5) || (m =? 8) || (m =? 10) then 30
  else 31.

(** Modelled from the spec: [addMonths] of date-fns, which the sources
    only import.  "Calendar month arithmetic: preserves day-of-month
    where valid, clamps to month-end otherwise". *)
Definition addMonths (d : date) (amount : Z) : date :=
  let t := year d * 12 + month d + amount in
  let y := t / 12 in
  let m := t mod 12 in
  mkDate y m (Z.min (day d) (daysInMonth y m)).

(** Days since 1970-01-01 of a civil date. *)
Definition dayNumber (d : date) : Z :=
  let m := month d + 1 in
  let y := if m <=? 2 then year d - 1 else year d in
  let era := y / 400 in
  let yoe := y - era * 400 in
  let mp := if m <=? 2 then m + 9 else m - 3 in
  let doy := (153 * mp + 2) / 5 + day d - 1 in
  let doe := yoe * 365 + yoe / 4 - yoe / 100 + doy in
  era * 146097 + doe - 719468.

(** Modelled from the spec: [differenceInDays] of date-fns, which the
    sources only import: the "whole-day difference" of two dates, here
    both at midnight. *)
Definition differenceInDays (later earlier : date) : Z :=
  dayNumber later - dayNumber earlier.

Definition le (a b : date) : bool := dayNumber a <=? dayNumber b.

End Calendar.

#[export] Instance calendarDates : DateFns :=
  {| Date := Calendar.date;
     addMonths := Calendar.addMonths;
     differenceInDays := Calendar.differenceInDays;
     date_le := Calendar.le |}.

(* ------------------------------------------------------------------ *)
(** ** Arrays *)

Module Arr.
Section Arrays.
Context {A : Type}.

(** [l.slice(start, stop)], with the negative-index rule. *)
Definition slice (l : list A) (start stop : Z) : list A :=
  let len := Z.of_nat (List.length l) in
  let rel k := if k <? 0 then Z.max (len + k) 0 else Z.min k len in
  let from := rel start in
  let final := rel stop in
  firstn (Z.to_nat (final - from)) (skipn (Z.to_nat from) l).

Fixpoint findIndexFrom (p : A -> bool) (l : list A) (i : Z) : Z :=
  match l with
  | [] => -1
  | x :: rest => if p x then i else findIndexFrom p rest (i + 1)
  end.

(** [l.findIndex(p)] *)
Definition findIndex (p : A -> bool) (l : list A) : Z := findIndexFrom p l 0.

(** [l[k]]: [None] stands for [undefined]. *)
Definition index (l : list A) (k : Z) : option A :=
  if k <? 0 then None else nth_error l (Z.to_nat k).

(** [l.reduce((sum, row) => sum + f(row), 0)] *)
Definition sumOf (f : A -> number) (l : list A) : number :=
  fold_left (fun sum row => (sum + f row)%js) l (ofZ 0).

Definition len (l : list A) : Z := Z.of_nat (List.length l).
End Arrays.
End Arr.

Import Arr.

(* ------------------------------------------------------------------ *)
(** ** Amortization rows *)

(** [AmortizationRow] of the DCB page; the loan page declares the same
    structure under the name [Row]. *)
Record AmortizationRow {D : DateFns} : Type := mkRow {
  installmentNumber : Z;
  dueDate : Date;
  principalAmount : number;
  interestAmount : number;
  totalInstallment : number;
  principalBalance : number
}.

(* ------------------------------------------------------------------ *)
(** ** The loan calculator page *)

Module LoanCalculator.

(** The fields of the form as [handleCalculate] reads them:
    [parseFloat(loanAmount)], [parseFloat(interestRate)],
    [parseInt(numInstalments)], the two selected frequencies and the
    start date.  The handler returns early unless every field is
    filled. *)
Record FormState {D : DateFns} : Type := mkForm {
  loanAmount : number;
  interestRate : number;
  numInstalments : Z;
  instalmentFreq : string;
  interestAppFreq : string;
  instalmentStartDate : Date
}.

Definition Row {D : DateFns} : Type := AmortizationRow.

(** What the handler stores: [setEmi], [setLastDate], [setSchedule]. *)
Record Stored {D : DateFns} : Type := mkStored {
  emi : number;
  lastDate : Date;
  schedule : list Row
}.

Definition getMonthsToAdd (frequency : string) : Z :=
  if String.eqb frequency "monthly" then 1
  else if String.eqb frequency "quarterly" then 3
  else if String.eqb frequency "half-yearly" then 6
  else if String.eqb frequency "yearly" then 12
  else 1.

Section Handler.
Context {D : DateFns} {M : MathLib}.

Definition getRatePerPeriod (annual : number) (freq : string) (instMonths : Z)
  : number :=
  let tYears := (instMonths / 12)%js in
  if String.eqb freq "no-compound" then (annual * tYears)%js
  else
    let periodsPerYear : Z :=
      if String.eqb freq "daily" then 365
      else if String.eqb freq "monthly" then 12
      else if String.eqb freq "quarterly" then 4
      else if String.eqb freq "half-yearly" then 2
      else if String.eqb freq "yearly" then 1
      else 1 in
    (Math_pow (1 + annual / periodsPerYear) (periodsPerYear * tYears) - 1)%js.

(** The body of [for (let i = 0; i < n; i++)], run [count] more times
    from index [i] with running balance [balance]. *)
Fixpoint rowsFrom (start : Date) (months : Z) (r instalmentAmount : number)
  (count : nat) (i : Z) (balance : number) : list Row :=
  match count with
  | O => []
  | S count' =>
      let dueDate := addMonths start (i * months) in
      let interestAmount := (balance * r)%js in
      let principalAmount := (instalmentAmount - interestAmount)%js in
      let nextBalance := (balance - principalAmount)%js in
      mkRow D (i + 1) dueDate principalAmount interestAmount instalmentAmount
        nextBalance
      :: rowsFrom start months r instalmentAmount count' (i + 1) nextBalance
  end.

Definition handleCalculate (f : FormState) : Stored :=
  let principal := loanAmount f in
  let annualRate := (interestRate f / 100)%js in
  let n := numInstalments f in
  let months := getMonthsToAdd (instalmentFreq f) in
  let r := getRatePerPeriod annualRate (interestAppFreq f) months in
  let instalmentAmount :=
    ((principal * r * Math_pow (1 + r) n) / (Math_pow (1 + r) n - 1))%js in
  let rows :=
    rowsFrom (instalmentStartDate f) months r instalmentAmount
      (Z.to_nat n) 0 principal in
  mkStored D instalmentAmount
    (addMonths (instalmentStartDate f) ((n - 1) * months))
    rows.

(** The effective rate of one instalment period, [r], as a function of
    the form. *)
Definition ratePerPeriod (f : FormState) : number :=
  getRatePerPeriod (interestRate f / 100)%js (interestAppFreq f)
    (getMonthsToAdd (instalmentFreq f)).

End Handler.
End LoanCalculator.

(* ------------------------------------------------------------------ *)
(** ** The DCB calculator page *)

Module DCBCalculator.

(** ["instalments" | "outstanding" | "collection"] *)
Inductive InputOption : Type := Instalments | Outstanding | Collection.

(** The fields of the form as [handleCalculate] reads them: the results
    of [parseFloat] and [parseInt] on the text fields, the selected
    frequencies and dates, and the selected input option.
    [instalmentsPaid] is [None] where [parseInt] gives [NaN] (an empty
    field); the amount fields hold [NaN] in that case.  The handler
    rejects the form, with a toast, unless every required field is
    filled. *)
Record FormState {D : DateFns} : Type := mkForm {
  loanAmount : number;
  interestRate : number;
  numInstalments : Z;
  instalmentFreq : string;
  interestAppFreq : string;
  instalmentStartDate : Date;
  upToDate : Date;
  inputOption : InputOption;
  instalmentsPaid : option Z;
  principalOutstanding : number;
  interestOutstanding : number;
  principalCollection : number;
  interestCollection : number
}.

Record CalculationResults {D : DateFns} : Type := mkResults {
  instalmentAmount : number;
  emiPerMonth : number;
  principalDemand : number;
  interestDemand : number;
  overduePrincipal : number;
  overdueInterest : number;
  installmentsToBePaid : Z;
  outstandingPrincipal : number;
  outstandingInterest : number;
  totalPrincipalBalance : number;
  totalInterestBalance : number;
  overdueSinceDate : option Date;
  overdueDays : option Z;
  demand : number;
  collection : number;
  balance : number;
  amortizationSchedule : list AmortizationRow
}.

(** The five locals that the three branches on [inputOption] assign. *)
Record Payments : Type := mkPayments {
  instalmentsPaidNum : Z;
  principalOut : number;
  interestOut : number;
  principalColl : number;
  interestColl : number
}.

Definition getMonthsToAdd (frequency : string) : Z :=
  if String.eqb frequency "daily" then 1
  else if String.eqb frequency "monthly" then 1
  else if String.eqb frequency "quarterly" then 3
  else if String.eqb frequency "half-yearly" then 6
  else if String.eqb frequency "yearly" then 12
  else 1.

Section Handler.
Context {D : DateFns} {M : MathLib}.

Definition getRatePerPeriod (annualRate : number) (interestFrequency : string)
  (instalmentMonths : Z) : number :=
  let tYears := (instalmentMonths / 12)%js in
  if String.eqb interestFrequency "no-compound" then (annualRate * tYears)%js
  else
    let periodsPerYear : Z :=
      if String.eqb interestFrequency "daily" then 365
      else if String.eqb interestFrequency "monthly" then 12
      else if String.eqb interestFrequency "quarterly" then 4
      else if String.eqb interestFrequency "half-yearly" then 2
      else if String.eqb interestFrequency "yearly" then 1
      else 1 in
    (Math_pow (1 + annualRate / periodsPerYear) (periodsPerYear * tYears) - 1)%js.

(** The body of [for (let i = 0; i < totalInstalments; i++)], run
    [count] more times from index [i] with [remainingBalance]. *)
Fixpoint scheduleFrom (start : Date) (monthsToAdd : Z)
  (ratePerPeriod instalmentAmount : number)
  (count : nat) (i : Z) (remainingBalance : number) : list AmortizationRow :=
  match count with
  | O => []
  | S count' =>
      let dueDate := addMonths start (i * monthsToAdd) in
      let interestAmount := (remainingBalance * ratePerPeriod)%js in
      let principalAmount := (instalmentAmount - interestAmount)%js in
      mkRow D (i + 1) dueDate principalAmount interestAmount instalmentAmount
        (remainingBalance - principalAmount)%js
      :: scheduleFrom start monthsToAdd ratePerPeriod instalmentAmount
           count' (i + 1) (remainingBalance - principalAmount)%js
  end.

(** [findIndex(row => row.principalBalance < principalOut)], with [-1]
    replaced by [0]. *)
Definition paidFromBalance (schedule : list AmortizationRow)
  (principalOut : number) : Z :=
  let found :=
    findIndex (fun row => (principalBalance row < principalOut)%js) schedule in
  if found =? -1 then 0 else found.

(** The [if (inputOption === ...)] chain. *)
Definition readPayments (f : FormState) (principal : number)
  (schedule : list AmortizationRow) : Payments :=
  match inputOption f with
  | Instalments =>
      mkPayments
        (match instalmentsPaid f with Some k => k | None => 0 end)
        0 0 0 0
  | Outstanding =>
      let principalOut := orZero (principalOutstanding f) in
      let interestOut := orZero (interestOutstanding f) in
      mkPayments (paidFromBalance schedule principalOut)
        principalOut interestOut 0 0
  | Collection =>
      let principalColl := orZero (principalCollection f) in
      let interestColl := orZero (interestCollection f) in
      let principalOut := (principal - principalColl)%js in
      mkPayments (paidFromBalance schedule principalOut)
        principalOut 0 principalColl interestColl
  end.

(** [handleCalculate] past its validation.  [None] is the [TypeError]
    raised by [amortizationSchedule[instalmentsPaidNum].dueDate] when
    the indexed element is [undefined]. *)
Definition handleCalculate (f : FormState) : option CalculationResults :=
  let principal := loanAmount f in
  let annualRate := (interestRate f / 100)%js in
  let totalInstalments := numInstalments f in
  let monthsToAdd := getMonthsToAdd (instalmentFreq f) in
  let ratePerPeriod :=
    getRatePerPeriod annualRate (interestAppFreq f) monthsToAdd in
  let instalmentAmount :=
    ((principal * ratePerPeriod * Math_pow (1 + ratePerPeriod) totalInstalments)
     / (Math_pow (1 + ratePerPeriod) totalInstalments - 1))%js in
  let emiPerMonth := (instalmentAmount / monthsToAdd)%js in
  let amortizationSchedule :=
    scheduleFrom (instalmentStartDate f) monthsToAdd ratePerPeriod
      instalmentAmount (Z.to_nat totalInstalments) 0 principal in
  let instalmentsDue :=
    len (filter (fun row => date_le (dueDate row) (upToDate f))
           amortizationSchedule) in
  let p := readPayments f principal amortizationSchedule in
  let instalmentsPaidNum := instalmentsPaidNum p in
  let overdueInstalments := Z.max 0 (instalmentsDue - instalmentsPaidNum) in
  let paidInstalments := slice amortizationSchedule 0 instalmentsPaidNum in
  let overdueSchedule :=
    slice amortizationSchedule instalmentsPaidNum instalmentsDue in
  let paidPrincipal := sumOf principalAmount paidInstalments in
  let paidInterest := sumOf interestAmount paidInstalments in
  let overduePrincipal0 := sumOf principalAmount overdueSchedule in
  let overdueInterest0 := sumOf interestAmount overdueSchedule in
  let totalInterest := sumOf interestAmount amortizationSchedule in
  let remainingPrincipal := (principal - paidPrincipal - overduePrincipal0)%js in
  let remainingInterest := (totalInterest - paidInterest - overdueInterest0)%js in
  let dueRows :=
    filter (fun row => date_le (dueDate row) (upToDate f)) amortizationSchedule in
  let principalDemand := sumOf principalAmount dueRows in
  let interestDemand := sumOf interestAmount dueRows in
  let demand := (principalDemand + interestDemand)%js in
  let collection := (paidPrincipal + paidInterest)%js in
  let balance := (demand - collection)%js in
  let totalPrincipalBalance0 := (principal - paidPrincipal)%js in
  let totalInterestBalance0 := (interestDemand - paidInterest)%js in
  let totalPrincipalBalance :=
    match inputOption f with
    | Outstanding => principalOut p
    | _ => totalPrincipalBalance0
    end in
  let totalInterestBalance :=
    match inputOption f with
    | Outstanding => interestOut p
    | _ => totalInterestBalance0
    end in
  let overduePrincipal :=
    match inputOption f with
    | Instalments => overduePrincipal0
    | Outstanding => Math_max 0 (totalPrincipalBalance - remainingPrincipal)%js
    | Collection => Math_max 0 (principalDemand - principalColl p)%js
    end in
  let overdueInterest :=
    match inputOption f with
    | Instalments => overdueInterest0
    | Outstanding => totalInterestBalance
    | Collection => Math_max 0 (interestDemand - interestColl p)%js
    end in
  let overdueSince : option (option Date) :=
    if (overdueInstalments >? 0) && (instalmentsPaidNum <? len amortizationSchedule)
    then
      match index amortizationSchedule instalmentsPaidNum with
      | Some row => Some (Some (dueDate row))
      | None => None
      end
    else Some None in
  match overdueSince with
  | None => None
  | Some overdueSinceDate =>
      let overdueDays :=
        match overdueSinceDate with
        | Some since => Some (Z.max 0 (differenceInDays (upToDate f) since))
        | None => None
        end in
      Some
        (mkResults D instalmentAmount emiPerMonth principalDemand interestDemand
           overduePrincipal overdueInterest overdueInstalments
           remainingPrincipal remainingInterest
           totalPrincipalBalance totalInterestBalance
           overdueSinceDate overdueDays demand collection balance
           amortizationSchedule)
  end.

(** The locals of [handleCalculate] that the statements below name, as
    functions of the form. *)
Definition ratePerPeriod (f : FormState) : number :=
  getRatePerPeriod (interestRate f / 100)%js (interestAppFreq f)
    (getMonthsToAdd (instalmentFreq f)).

Definition instalment (f : FormState) : number :=
  ((loanAmount f * ratePerPeriod f
    * Math_pow (1 + ratePerPeriod f) (numInstalments f))
   / (Math_pow (1 + ratePerPeriod f) (numInstalments f) - 1))%js.

Definition schedule (f : FormState) : list AmortizationRow :=
  scheduleFrom (instalmentStartDate f) (getMonthsToAdd (instalmentFreq f))
    (ratePerPeriod f) (instalment f) (Z.to_nat (numInstalments f)) 0
    (loanAmount f).

Definition dueRows (f : FormState) : list AmortizationRow :=
  filter (fun row => date_le (dueDate row) (upToDate f)) (schedule f).

Definition instalmentsDue (f : FormState) : Z := len (dueRows f).

Definition payments (f : FormState) : Payments :=
  readPayments f (loanAmount f) (schedule f).

Definition paidCount (f : FormState) : Z := instalmentsPaidNum (payments f).

Definition paidInstalments (f : FormState) : list AmortizationRow :=
  slice (schedule f) 0 (paidCount f).

Definition overdueSchedule (f : FormState) : list AmortizationRow :=
  slice (schedule f) (paidCount f) (instalmentsDue f).

(** [overdueSinceDate] where reading it does not raise. *)
Definition overdueSince (f : FormState) : option Date :=
  if (Z.max 0 (instalmentsDue f - paidCount f) >? 0)
     && (paidCount f <? len (schedule f))
  then option_map dueDate (index (schedule f) (paidCount f))
  else None.

End Handler.
End DCBCalculator.

(* ------------------------------------------------------------------ *)
(** ** The deposit calculator page *)

Module Deposit.

Record DepositResult : Type := mkResult {
  totalPrincipal : number;
  interestAmount : number;
  maturityValue : number;
  apy : number
}.

Record TableRow : Type := mkTableRow {
  month : Z;
  contribution : number;
  interest : number;
  balance : number
}.

Inductive PaymentMethod : Type := monthly_interest | maturity.

(** The state of the form as [handleCalc] reads it: [parseFloat] of the
    principal, monthly deposit and rate fields, [parseInt] of the period
    field ([None] for [NaN]), and the two selections. *)
Record State : Type := mkState {
  principal : number;
  monthly : number;
  months : option Z;
  rate : number;
  comp : string;
  paymentMethod : PaymentMethod
}.

Definition compoundsPerYear (comp : string) : Z :=
  if String.eqb comp "daily" then 365
  else if String.eqb comp "monthly" then 12
  else if String.eqb comp "quarterly" then 4
  else if String.eqb comp "half-yearly" then 2
  else if String.eqb comp "yearly" then 1
  else if String.eqb comp "no-compound" then 0
  else 12.

(** The state of each of the three loops: the rows pushed so far (in
    order), [balance] and [cumInterest]. *)
Record Loop : Type := mkLoop {
  rows : list TableRow;
  loopBalance : number;
  cumInterest : number
}.

(** The loop of the monthly-interest branch, run [count] more times from
    [month]. *)
Fixpoint payoutLoop (D ratePct : number) (count : nat) (month : Z)
  (balance cumInterest : number) : Loop :=
  match count with
  | O => mkLoop [] balance cumInterest
  | S count' =>
      let base := (balance + D)%js in
      let interest := ((base * 1 * ratePct) / (1200 + ratePct))%js in
      let cumInterest := (cumInterest + interest)%js in
      let balance := base in
      let rest := payoutLoop D ratePct count' (month + 1) balance cumInterest in
      mkLoop (mkTableRow month D cumInterest balance :: rows rest)
        (loopBalance rest) (Deposit.cumInterest rest)
  end.

(** The loop of the no-compound branch. *)
Fixpoint simpleLoop (D jSimple : number) (count : nat) (month : Z)
  (balance cumInterest : number) : Loop :=
  match count with
  | O => mkLoop [] balance cumInterest
  | S count' =>
      let base := (balance + D)%js in
      let interest := (base * jSimple)%js in
      let cumInterest := (cumInterest + interest)%js in
      let balance := base in
      let rest := simpleLoop D jSimple count' (month + 1) balance cumInterest in
      mkLoop (mkTableRow month D cumInterest balance :: rows rest)
        (loopBalance rest) (Deposit.cumInterest rest)
  end.

(** The loop of the compounding branch. *)
Fixpoint compoundLoop (D j : number) (count : nat) (month : Z)
  (balance cumInterest : number) : Loop :=
  match count with
  | O => mkLoop [] balance cumInterest
  | S count' =>
      let base := (balance + D)%js in
      let interest := (base * j)%js in
      let balance := (base + interest)%js in
      let cumInterest := (cumInterest + interest)%js in
      let rest := compoundLoop D j count' (month + 1) balance cumInterest in
      mkLoop (mkTableRow month D cumInterest balance :: rows rest)
        (loopBalance rest) (Deposit.cumInterest rest)
  end.

Section Handler.
Context {M : MathLib}.

(** [Math.max(0, parseInt(months) || 0)] *)
Definition termMonths (s : State) : Z :=
  Z.max 0 (match months s with Some k => k | None => 0 end).

(** The effective monthly rate [j]. *)
Definition monthlyRate (s : State) : number :=
  let rNominal := (orZero (rate s) / 100)%js in
  let m := compoundsPerYear (comp s) in
  if m >? 0 then (Math_pow (1 + rNominal / m) (m / 12) - 1)%js
  else (rNominal / 12)%js.

(** [handleCalc]: the pair of [setResult]'s and [setTable]'s arguments. *)
Definition handleCalc (s : State) : DepositResult * list TableRow :=
  let P := orZero (principal s) in
  let D := orZero (monthly s) in
  let nMonths := termMonths s in
  let rNominal := (orZero (rate s) / 100)%js in
  let m := compoundsPerYear (comp s) in
  let apy := if m >? 0 then (Math_pow (1 + rNominal / m) m - 1)%js else rNominal in
  let j := monthlyRate s in
  let totalPrincipal := (P + D * nMonths)%js in
  match paymentMethod s with
  | monthly_interest =>
      let ratePct := orZero (rate s) in
      let l := payoutLoop D ratePct (Z.to_nat nMonths) 1 P 0 in
      (mkResult totalPrincipal (cumInterest l) (loopBalance l) apy, rows l)
  | maturity =>
      if m =? 0 then
        let jSimple := (rNominal / 12)%js in
        let l := simpleLoop D jSimple (Z.to_nat nMonths) 1 P 0 in
        (mkResult totalPrincipal (cumInterest l)
           (loopBalance l + cumInterest l)%js apy, rows l)
      else
        let fvLump := (P * Math_pow (1 + j) nMonths)%js in
        let fvMonthly :=
          if (D > 0)%js && strict_ne j 0
          then (D * ((Math_pow (1 + j) nMonths - 1) / j) * (1 + j))%js
          else (D * nMonths)%js in
        let maturityValue := (fvLump + fvMonthly)%js in
        let interestAmount := Math_max 0 (maturityValue - totalPrincipal)%js in
        let l := compoundLoop D j (Z.to_nat nMonths) 1 P 0 in
        (mkResult totalPrincipal interestAmount maturityValue apy, rows l)
  end.

End Handler.
End Deposit.

(* ------------------------------------------------------------------ *)
(** ** The date text fields *)

(** The text of a field is a list of characters.  The pages keep only
    the ASCII digits of what is typed ([/\D/g] removes every other code
    unit), so the characters outside ASCII need no finer model. *)
Module DateField.

Definition text : Type := list Ascii.ascii.

(** A character that [\D] does not match. *)
Definition isDigit (c : Ascii.ascii) : bool :=
  let n := Ascii.nat_of_ascii c in
  (Nat.leb 48 n && Nat.leb n 57)%bool.

Definition slash : Ascii.ascii := Ascii.ascii_of_nat 47.

(** A character the masked text may show: a digit or the slash. *)
Definition shown (c : Ascii.ascii) : Prop := isDigit c = true \/ c = slash.

(** [formatDateTyping] of the DCB page. *)
Definition formatDateTyping (value : text) : text :=
  let digits := slice (filter isDigit value) 0 8 in
  let day := slice digits 0 2 in
  let month := slice digits 2 4 in
  let year := slice digits 4 8 in
  let out := day in
  let out := if len digits >? 2 then out ++ slash :: month else out in
  let out := if len digits >? 4 then out ++ slash :: year else out in
  out.

(** [mask] of the loan page. *)
Definition mask (v : text) : text :=
  let digits := slice (filter isDigit v) 0 8 in
  let dd := slice digits 0 2 in
  let mm := slice digits 2 4 in
  let yyyy := slice digits 4 8 in
  let out := dd in
  let out := if len digits >? 2 then out ++ slash :: mm else out in
  let out := if len digits >? 4 then out ++ slash :: yyyy else out in
  out.

End DateField.

(* ------------------------------------------------------------------ *)
(** ** Reference quantities *)

Module Reference.

(** [x] is within [tol] of [y], relative to [y]; both finite. *)
Definition withinRelative (tol : Qc) (x y : number) : Prop :=
  match x, y with
  | Fin a, Fin b => (Qcabs (a - b) <= tol * Qcabs b)%Qc
  | _, _ => False
  end.

(** [x] is within [tol] of [y]; both finite. *)
Definition withinAbsolute (tol : Qc) (x y : number) : Prop :=
  match x, y with
  | Fin a, Fin b => (Qcabs (a - b) <= tol)%Qc
  | _, _ => False
  end.

(** The balance of a loan [count] instalments later: each instalment
    [e] pays the interest [b * r] on the balance [b] and reduces the
    balance by the remainder. *)
Fixpoint balanceAfter (r e : Qc) (count : nat) (b : Qc) : Qc :=
  match count with
  | O => b
  | S count' => balanceAfter r e count' (b - (e - b * r))%Qc
  end.

(** The level instalment of the reducing-balance formula. *)
Definition levelInstalment (p r : Qc) (n : nat) : Qc :=
  (p * r * (1 + r) ^ n / ((1 + r) ^ n - 1))%Qc.

(** A row whose principal amount, instalment and balance are [NaN]. *)
Definition rowIsNaN {D : DateFns} (row : AmortizationRow) : Prop :=
  principalAmount row = NaN
  /\ totalInstallment row = NaN
  /\ principalBalance row = NaN.


Definition millionth : Qc := Q2Qc (1 # 1000000).

Definition halfCent : Qc := Q2Qc (1 # 200).

(** The interest of one month of a deposit whose interest is paid out:
    [(balance + contribution) * rate / (1200 + rate)], the rate in
    percent a year. *)
Definition payoutInterest (balance contribution ratePct : number) : number :=
  ((balance + contribution) * ratePct / (1200 + ratePct))%js.

(** The count [k] as a rational. *)
Definition natQc (k : nat) : Qc := Q2Qc (inject_Z (Z.of_nat k)).

End Reference.

(* ------------------------------------------------------------------ *)
(** ** Shapes of a schedule *)

Module Shapes.
Section Rows.
Context {D : DateFns}.

(** [rows] has one row for each instalment number from 1 to [n], due
    [months] months apart from [start], each with the instalment [e]. *)
Definition laidOut (start : Date) (months : Z) (e : number) (n : Z)
  (rows : list AmortizationRow) : Prop :=
  len rows = Z.max 0 n
  /\ forall i : Z,
       0 <= i < n ->
       exists row,
         nth_error rows (Z.to_nat i) = Some row
         /\ installmentNumber row = i + 1
         /\ dueDate row = addMonths start (i * months)
         /\ totalInstallment row = e.

(** Each row charges interest at the rate [r] on the balance before it
    (the principal for the first row), repays the rest of the
    instalment [e], and carries the balance less that repayment. *)
Definition reducing (principal r e : number) (rows : list AmortizationRow)
  : Prop :=
  (forall first,
      nth_error rows 0 = Some first ->
      interestAmount first = (principal * r)%js
      /\ principalAmount first = (e - interestAmount first)%js
      /\ principalBalance first = (principal - principalAmount first)%js)
  /\ (forall k row next,
         nth_error rows k = Some row ->
         nth_error rows (S k) = Some next ->
         interestAmount next = (principalBalance row * r)%js
         /\ principalAmount next = (e - interestAmount next)%js
         /\ principalBalance next
            = (principalBalance row - principalAmount next)%js).

(** From one row to the next the principal repaid grows by the factor
    [1 + r]. *)
Definition growing (r : number) (rows : list AmortizationRow) : Prop :=
  forall k row next,
    nth_error rows k = Some row ->
    nth_error rows (S k) = Some next ->
    principalAmount next = (principalAmount row * (1 + r))%js.

End Rows.

(** The rows of a deposit table are numbered from 1, one per month of
    the term, each with the monthly deposit [D]. *)
Definition monthByMonth (D : number) (n : Z) (table : list Deposit.TableRow)
  : Prop :=
  len table = n
  /\ forall i : Z,
       0 <= i < n ->
       exists row,
         nth_error table (Z.to_nat i) = Some row
         /\ Deposit.month row = i + 1
         /\ Deposit.contribution row = D.

End Shapes.

(* ------------------------------------------------------------------ *)
(** ** Scenarios *)

Module Scenarios.

(** The date [dd/mm/yyyy]. *)
Definition on (dd mm yyyy : Z) : Calendar.date := Calendar.mkDate yyyy (mm - 1) dd.

(** A loan of 120000 at 12% a year, twelve monthly instalments from
    15/01/2024 with monthly compounding, looked at on 20/06/2024. *)
Definition loanForm (mode : DCBCalculator.InputOption)
  (paid : option Z) (pOut iOut pColl iColl : number) : DCBCalculator.FormState :=
  DCBCalculator.mkForm calendarDates 120000 12 12 "monthly" "monthly"
    (on 15 1 2024) (on 20 6 2024) mode paid pOut iOut pColl iColl.

(** Four instalments paid. *)
Definition fourPaid : DCBCalculator.FormState :=
  loanForm DCBCalculator.Instalments (Some 4) NaN NaN NaN NaN.

(** Outstanding principal 90000 and outstanding interest 1500 entered. *)
Definition outstandingEntered : DCBCalculator.FormState :=
  loanForm DCBCalculator.Outstanding None 90000 1500 NaN NaN.

(** Principal collected 40000 and interest collected 3000 entered. *)
Definition collectionEntered : DCBCalculator.FormState :=
  loanForm DCBCalculator.Collection None NaN NaN 40000 3000.

(** A loan of 12000 at 0% a year in twelve monthly instalments. *)
Definition zeroRate : DCBCalculator.FormState :=
  DCBCalculator.mkForm calendarDates 12000 0 12 "monthly" "monthly"
    (on 15 1 2024) (on 20 6 2024) DCBCalculator.Instalments (Some 4)
    NaN NaN NaN NaN.

Definition zeroRateLoan : LoanCalculator.FormState :=
  LoanCalculator.mkForm calendarDates 12000 0 12 "monthly" "monthly"
    (on 15 1 2024).

(** A loan of 1000 at 12% a year with the number of instalments
    entered as 0. *)
Definition zeroCount : DCBCalculator.FormState :=
  DCBCalculator.mkForm calendarDates 1000 12 0 "monthly" "monthly"
    (on 15 1 2024) (on 20 6 2024) DCBCalculator.Instalments (Some 0)
    NaN NaN NaN NaN.

Definition plainLoan : LoanCalculator.FormState :=
  LoanCalculator.mkForm calendarDates 120000 12 12 "monthly" "monthly"
    (on 15 1 2024).

(** A deposit of 100000 at 12% a year for twelve months, compounded
    monthly and paid at maturity, with no monthly deposit. *)
Definition lumpSum : Deposit.State :=
  Deposit.mkState 100000 NaN (Some 12) 12 "monthly" Deposit.maturity.

(** The same deposit with the interest paid out every month. *)
Definition monthlyPayout : Deposit.State :=
  Deposit.mkState 100000 NaN (Some 12) 12 "monthly" Deposit.monthly_interest.

(** The deposit at maturity with 100 withdrawn every month. *)
Definition withdrawing : Deposit.State :=
  Deposit.mkState 100000 (-100) (Some 12) 12 "monthly" Deposit.maturity.

(** The deposit at maturity with 1000 added every month. *)
Definition saving : Deposit.State :=
  Deposit.mkState 100000 1000 (Some 12) 12 "monthly" Deposit.maturity.

End Scenarios.

(* ------------------------------------------------------------------ *)
(** ** Growth of a deposit *)

Module Growth.

(** The value after [k] months of one unit deposited at the start of
    each month, every month growing by the factor [q]:
    [q + q^2 + ... + q^k]. *)
Fixpoint annuityDue (q : Qc) (k : nat) : Qc :=
  match k with
  | O => Q2Qc 0
  | S k' => (q ^ k + annuityDue q k')%Qc
  end.

(** [1 + 2 + ... + k] *)
Definition triangle (k : nat) : Qc :=
  (Reference.natQc k * (Reference.natQc k + 1) / Q2Qc 2)%Qc.

End Growth.

(* ------------------------------------------------------------------ *)
(** ** Further scenarios *)

Module MoreScenarios.

(** The loan of [Scenarios.loanForm] with all six instalments due by
    20/06/2024 paid. *)
Definition sixPaid : DCBCalculator.FormState :=
  Scenarios.loanForm DCBCalculator.Instalments (Some 6) NaN NaN NaN NaN.

(** The same loan with the number of instalments paid entered as -1. *)
Definition minusOnePaid : DCBCalculator.FormState :=
  Scenarios.loanForm DCBCalculator.Instalments (Some (-1)) NaN NaN NaN NaN.

(** A deposit of 100000 at 12% a year for twelve months without
    compounding, paid at maturity, with no monthly deposit. *)
Definition simpleDeposit : Deposit.State :=
  Deposit.mkState 100000 NaN (Some 12) 12 "no-compound" Deposit.maturity.

(** The characters of a text. *)
Definition chars (s : string) : DateField.text := list_ascii_of_string s.

End MoreScenarios.

(* ------------------------------------------------------------------ *)
(** ** The loan page over binary64 *)

(** The handler of the loan page once more, its numbers the binary64
    values the code computes with and every operation rounded as
    IEEE-754 rounds it.  The DCB page computes its instalment and its
    schedule by the same lines. *)
Module Binary64.
Import PrimFloat.
Local Open Scope float_scope.

Definition number : Type := float.

Fixpoint ofPositive (p : positive) : number :=
  match p with
  | xH => 1
  | xO q => 2 * ofPositive q
  | xI q => 2 * ofPositive q + 1
  end.

(** The number of the integer [k]; exact below [2 ^ 53] in magnitude. *)
Definition ofZ (k : Z) : number :=
  match k with
  | Z0 => 0
  | Zpos p => ofPositive p
  | Zneg p => - ofPositive p
  end.

(** The whole part of [x], for [0 <= x < 2 ^ i]. *)
Fixpoint wholePart (i : nat) (x : number) : Z :=
  match i with
  | O => 0%Z
  | S j =>
      let w := (2 ^ Z.of_nat j)%Z in
      if leb (ofZ w) x then Z.add w (wholePart j (x - ofZ w))
      else wholePart j x
  end.

(** The integer that [x] is, if it is one below [2 ^ 53] in
    magnitude. *)
Definition whole (x : number) : option Z :=
  let m := wholePart 53 (abs x) in
  let k := if ltb x 0 then (- m)%Z else m in
  if eqb (ofZ k) x then Some k else None.

Fixpoint powNat (b : number) (k : nat) : number :=
  match k with
  | O => 1
  | S k' => b * powNat b k'
  end.

(** [Math.pow] at an integer exponent, by repeated multiplication.
    ECMAScript leaves the value implementation-approximated; at the
    base 1 every product is exact and the value is 1.  At an exponent
    that is not an integer below [2 ^ 53] in magnitude this definition
    returns [NaN], and no statement below evaluates it there. *)
Definition Math_pow (b e : number) : number :=
  match whole e with
  | Some k =>
      if (k <? 0)%Z then 1 / powNat b (Z.to_nat (- k))
      else powNat b (Z.to_nat k)
  | None => nan
  end.

Record Row {D : DateFns} : Type := mkRow {
  installmentNumber : Z;
  dueDate : Date;
  principalAmount : number;
  interestAmount : number;
  totalInstallment : number;
  principalBalance : number
}.

Record FormState {D : DateFns} : Type := mkForm {
  loanAmount : number;
  interestRate : number;
  numInstalments : Z;
  instalmentFreq : string;
  interestAppFreq : string;
  instalmentStartDate : Date
}.

Record Stored {D : DateFns} : Type := mkStored {
  emi : number;
  lastDate : Date;
  schedule : list Row
}.

Section Handler.
Context {D : DateFns}.

Definition getRatePerPeriod (annual : number) (freq : string) (instMonths : Z)
  : number :=
  let tYears := ofZ instMonths / 12 in
  if String.eqb freq "no-compound" then annual * tYears
  else
    let periodsPerYear : Z :=
      (if String.eqb freq "daily" then 365
       else if String.eqb freq "monthly" then 12
       else if String.eqb freq "quarterly" then 4
       else if String.eqb freq "half-yearly" then 2
       else if String.eqb freq "yearly" then 1
       else 1)%Z in
    Math_pow (1 + annual / ofZ periodsPerYear) (ofZ periodsPerYear * tYears) - 1.

Fixpoint rowsFrom (start : Date) (months : Z) (r instalmentAmount : number)
  (count : nat) (i : Z) (balance : number) : list Row :=
  match count with
  | O => []
  | S count' =>
      let dueDate := addMonths start (i * months)%Z in
      let interestAmount := balance * r in
      let principalAmount := instalmentAmount - interestAmount in
      let nextBalance := balance - principalAmount in
      mkRow D (i + 1)%Z dueDate principalAmount interestAmount instalmentAmount
        nextBalance
      :: rowsFrom start months r instalmentAmount count' (i + 1)%Z nextBalance
  end.

Definition handleCalculate (f : FormState) : Stored :=
  let principal := loanAmount f in
  let annualRate := interestRate f / 100 in
  let n := numInstalments f in
  let months := LoanCalculator.getMonthsToAdd (instalmentFreq f) in
  let r := getRatePerPeriod annualRate (interestAppFreq f) months in
  let instalmentAmount :=
    (principal * r * Math_pow (1 + r) (ofZ n)) / (Math_pow (1 + r) (ofZ n) - 1) in
  let rows :=
    rowsFrom (instalmentStartDate f) months r instalmentAmount
      (Z.to_nat n) 0%Z principal in
  mkStored D instalmentAmount
    (addMonths (instalmentStartDate f) ((n - 1) * months)%Z)
    rows.

(** The effective rate of one instalment period, [r], as a function of
    the form. *)
Definition ratePerPeriod (f : FormState) : number :=
  getRatePerPeriod (interestRate f / 100) (interestAppFreq f)
    (LoanCalculator.getMonthsToAdd (instalmentFreq f)).

(** The sum of [f] over the rows, added up from 0 in the order of the
    rows. *)
Definition sumOf (f : Row -> number) (rows : list Row) : number :=
  fold_left (fun sum row => sum + f row) rows 0.

End Handler.

(** [x] is within [tol] of [y], relative to [y]. *)
Definition withinRelative (tol x y : number) : bool :=
  leb (abs (x - y)) (tol * abs y).

Definition millionth : number := 1 / 1000000.



End Binary64.

(* ------------------------------------------------------------------ *)
(** * Properties *)

(** ** The instance of [Math.pow] meets its interface *)

Lemma Qred_inject_Z (k : Z) : Qred (inject_Z k) = inject_Z k.
Proof.
  apply Qred_iff. unfold inject_Z. simpl. apply Z.gcd_1_r.
Qed.

Lemma ExactPow_pow_integer (x : Qc) (k : Z) :
  ExactPow.pow (Fin x) (ofZ k) = powZ x k.
Proof.
  unfold ExactPow.pow, ofZ.
  destruct (Qc_eq_bool (Q2Qc (inject_Z k)) (Q2Qc 0)) eqn:E.
  - apply Qc_eq_bool_correct in E.
    apply (f_equal this) in E. cbn [this Q2Qc] in E.
    rewrite Qred_inject_Z in E. injection E as E. subst k.
    reflexivity.
  - unfold ExactPow.is_integer. cbn [this Q2Qc].
    rewrite Qred_inject_Z. reflexivity.
Qed.

#[export] Instance exactMath : MathLib :=
  {| Math_pow := ExactPow.pow; Math_pow_integer := ExactPow_pow_integer |}.

(** ** Numbers *)

Module NumberFacts.

Lemma Qccompare_refl (x : Qc) : (x ?= x)%Qc = Eq.
Proof. apply Qceq_alt. reflexivity. Qed.

Lemma Qc_eq_bool_refl (x : Qc) : Qc_eq_bool x x = true.
Proof.
  unfold Qc_eq_bool. destruct (Qc_eq_dec x x) as [_ | N]; [reflexivity | now elim N].
Qed.

Lemma eqb_eq (a b : number) : eqb a b = true -> a = b.
Proof.
  destruct a, b; simpl; intros E; try discriminate; try reflexivity.
  f_equal. now apply Qc_eq_bool_correct.
Qed.

Lemma eqb_refl (a : number) : eqb a a = true.
Proof. destruct a; simpl; auto using Qc_eq_bool_refl. Qed.

Lemma eqb_neq (a b : number) : eqb a b = false -> a <> b.
Proof. intros E ->. rewrite eqb_refl in E. discriminate. Qed.

Lemma by_sign_nonzero (y : Qc) (a b : number) :
  y <> Q2Qc 0 -> by_sign y a b a = a.
Proof.
  intros N. unfold by_sign.
  destruct (y ?= Q2Qc 0)%Qc eqn:E; try reflexivity.
  apply Qceq_alt in E. contradiction.
Qed.

Lemma div_Fin (x y : Qc) :
  y <> Q2Qc 0 -> (Fin x / Fin y)%js = Fin (x / y)%Qc.
Proof. intros N. simpl. now apply by_sign_nonzero. Qed.

Lemma div_zero_zero : (Fin (Q2Qc 0) / Fin (Q2Qc 0))%js = NaN.
Proof. reflexivity. Qed.

Lemma add_0_l (a : number) : (0 + a)%js = a.
Proof.
  destruct a; simpl; try reflexivity. f_equal. apply Qcplus_0_l.
Qed.

Lemma sub_0_r (a : number) : (a - 0)%js = a.
Proof.
  destruct a; simpl; try reflexivity. f_equal.
  change (Q2Qc (inject_Z 0)) with 0%Qc. ring.
Qed.

Lemma mul_1_r (a : number) : (a * 1)%js = a.
Proof.
  destruct a; simpl; try reflexivity. f_equal. apply Qcmult_1_r.
Qed.

(** [Math.max(0, x)] is never below zero. *)
Lemma Math_max_0_not_negative (x : number) : (Math_max 0 x < 0)%js = false.
Proof.
  destruct x as [q | | |]; try reflexivity.
  unfold Math_max, ofZ. cbn [lt].
  destruct (Q2Qc (inject_Z 0) ?= q)%Qc eqn:E; cbn [lt].
  - reflexivity.
  - unfold Qccompare in *.
    rewrite <- (Qcompare_antisym (Q2Qc (inject_Z 0)) q), E. reflexivity.
  - reflexivity.
Qed.

Lemma orZero_not_NaN (a : number) : a <> NaN -> truthy a = true \/ a = ofZ 0.
Proof.
  destruct a as [q | | |]; simpl; intros N; auto; try (now elim N).
  destruct (Qc_eq_bool q (Q2Qc 0)) eqn:E; auto.
  right. apply Qc_eq_bool_correct in E. subst. reflexivity.
Qed.

(** [a || 0] is [a] unless [a] is [NaN]. *)
Lemma orZero_id (a : number) : a <> NaN -> orZero a = a.
Proof.
  intros N. unfold orZero.
  destruct (orZero_not_NaN a N) as [T | ->]; [now rewrite T | reflexivity].
Qed.

End NumberFacts.

Import NumberFacts.

(** ** Arrays *)

Module ArrFacts.
Section Arrays.
Context {A : Type}.

Lemma slice_prefix (l : list A) (k : Z) :
  0 <= k -> slice l 0 k = firstn (Z.to_nat k) l.
Proof.
  intros K. unfold slice.
  assert (E : (k <? 0) = false) by (apply Z.ltb_ge; lia). rewrite E.
  change (0 <? 0) with false. cbv iota.
  replace (Z.min 0 (Z.of_nat (List.length l))) with 0 by lia.
  rewrite Z.sub_0_r. change (Z.to_nat 0) with O. cbn [skipn].
  destruct (Z.le_ge_cases k (Z.of_nat (List.length l))) as [L | G].
  - now replace (Z.min k (Z.of_nat (List.length l))) with k by lia.
  - replace (Z.min k (Z.of_nat (List.length l))) with (Z.of_nat (List.length l))
      by lia.
    rewrite Nat2Z.id, firstn_all. rewrite firstn_all2; [reflexivity | lia].
Qed.

Lemma slice_nil (a b : Z) : slice (@nil A) a b = [].
Proof. unfold slice. now rewrite skipn_nil, firstn_nil. Qed.

Lemma findIndexFrom_bounds (p : A -> bool) (l : list A) (i : Z) :
  findIndexFrom p l i = -1 \/ i <= findIndexFrom p l i.
Proof.
  revert i. induction l as [| x rest IH]; intros i; simpl.
  - now left.
  - destruct (p x).
    + right. lia.
    + destruct (IH (i + 1)) as [-> | L]; [now left | right; lia].
Qed.

Lemma index_Some (l : list A) (k : Z) :
  0 <= k < len l -> exists x, index l k = Some x /\ nth_error l (Z.to_nat k) = Some x.
Proof.
  intros [K0 K1]. unfold index, len in *.
  assert (E : (k <? 0) = false) by (apply Z.ltb_ge; lia). rewrite E.
  destruct (nth_error l (Z.to_nat k)) as [x |] eqn:N.
  - now exists x.
  - apply nth_error_None in N. lia.
Qed.

Lemma index_negative (l : list A) (k : Z) : k < 0 -> index l k = None.
Proof. intros K. unfold index. assert (E : (k <? 0) = true) by (apply Z.ltb_lt; lia). now rewrite E. Qed.

End Arrays.
End ArrFacts.

Import ArrFacts.

(** ** The DCB calculator *)

Module DCBFacts.
Import DCBCalculator.

Section Handler.
Context {D : DateFns} {M : MathLib}.

Ltac fold_locals H f :=
  unfold handleCalculate in H; cbv zeta in H;
  fold (ratePerPeriod f) in H; fold (instalment f) in H;
  fold (schedule f) in H; fold (dueRows f) in H; fold (instalmentsDue f) in H;
  fold (payments f) in H; fold (paidCount f) in H;
  fold (paidInstalments f) in H; fold (overdueSchedule f) in H.

(** Every field of the result in terms of the locals of the handler. *)
Lemma handleCalculate_fields (f : FormState) (res : CalculationResults) :
  handleCalculate f = Some res ->
  amortizationSchedule res = schedule f
  /\ instalmentAmount res = instalment f
  /\ emiPerMonth res = (instalment f / getMonthsToAdd (instalmentFreq f))%js
  /\ principalDemand res = sumOf principalAmount (dueRows f)
  /\ interestDemand res = sumOf interestAmount (dueRows f)
  /\ demand res = (principalDemand res + interestDemand res)%js
  /\ collection res =
       (sumOf principalAmount (paidInstalments f)
        + sumOf interestAmount (paidInstalments f))%js
  /\ balance res = (demand res - collection res)%js
  /\ installmentsToBePaid res = Z.max 0 (instalmentsDue f - paidCount f)
  /\ outstandingPrincipal res =
       (loanAmount f - sumOf principalAmount (paidInstalments f)
        - sumOf principalAmount (overdueSchedule f))%js
  /\ outstandingInterest res =
       (sumOf interestAmount (schedule f)
        - sumOf interestAmount (paidInstalments f)
        - sumOf interestAmount (overdueSchedule f))%js
  /\ totalPrincipalBalance res =
       match inputOption f with
       | Outstanding => principalOut (payments f)
       | _ => (loanAmount f - sumOf principalAmount (paidInstalments f))%js
       end
  /\ totalInterestBalance res =
       match inputOption f with
       | Outstanding => interestOut (payments f)
       | _ => (interestDemand res - sumOf interestAmount (paidInstalments f))%js
       end
  /\ overduePrincipal res =
       match inputOption f with
       | Instalments => sumOf principalAmount (overdueSchedule f)
       | Outstanding =>
           Math_max 0 (totalPrincipalBalance res - outstandingPrincipal res)%js
       | Collection =>
           Math_max 0 (principalDemand res - principalColl (payments f))%js
       end
  /\ overdueInterest res =
       match inputOption f with
       | Instalments => sumOf interestAmount (overdueSchedule f)
       | Outstanding => totalInterestBalance res
       | Collection =>
           Math_max 0 (interestDemand res - interestColl (payments f))%js
       end
  /\ overdueSinceDate res = overdueSince f
  /\ overdueDays res =
       option_map (fun since => Z.max 0 (differenceInDays (upToDate f) since))
         (overdueSinceDate res).
Proof.
  intros H. fold_locals H f. unfold overdueSince.
  destruct ((Z.max 0 (instalmentsDue f - paidCount f) >? 0)
            && (paidCount f <? len (schedule f))) eqn:C.
  - destruct (index (schedule f) (paidCount f)) as [row |] eqn:I;
      [| discriminate].
    injection H as <-. cbn. repeat split; reflexivity.
  - injection H as <-. cbn. repeat split; reflexivity.
Qed.

(** The handler completes exactly when the paid count is not negative:
    a negative count indexes the schedule out of range. *)
Lemma handleCalculate_completes (f : FormState) :
  0 <= paidCount f -> exists res, handleCalculate f = Some res.
Proof.
  intros K.
  destruct (handleCalculate f) as [res |] eqn:H; [now exists res |].
  exfalso. fold_locals H f.
  destruct ((Z.max 0 (instalmentsDue f - paidCount f) >? 0)
            && (paidCount f <? len (schedule f))) eqn:C; [| discriminate].
  apply andb_prop in C as [_ C]. apply Z.ltb_lt in C.
  destruct (index_Some (schedule f) (paidCount f)) as (row & I & _); [lia |].
  rewrite I in H. discriminate.
Qed.

Lemma handleCalculate_raises (f : FormState) :
  paidCount f < 0 -> handleCalculate f = None.
Proof.
  intros K.
  destruct (handleCalculate f) as [res |] eqn:H; [| reflexivity].
  exfalso. fold_locals H f.
  assert (L : 0 <= instalmentsDue f) by (unfold instalmentsDue, len; lia).
  assert (C1 : (Z.max 0 (instalmentsDue f - paidCount f) >? 0) = true)
    by (apply Z.gtb_lt; lia).
  assert (C2 : (paidCount f <? len (schedule f)) = true)
    by (apply Z.ltb_lt; unfold len; lia).
  rewrite C1, C2, index_negative in H by assumption. discriminate.
Qed.

Lemma completed_paidCount (f : FormState) (res : CalculationResults) :
  handleCalculate f = Some res -> 0 <= paidCount f.
Proof.
  intros H. destruct (Z.lt_ge_cases (paidCount f) 0) as [K | K]; [| exact K].
  rewrite (handleCalculate_raises f K) in H. discriminate.
Qed.

Lemma paidFromBalance_nonneg (l : list AmortizationRow) (x : number) :
  0 <= paidFromBalance l x.
Proof.
  unfold paidFromBalance, findIndex.
  destruct (findIndexFrom_bounds
              (fun row => (principalBalance row < x)%js) l 0) as [-> | L].
  - reflexivity.
  - destruct (_ =? -1); lia.
Qed.

Lemma paidCount_derived (f : FormState) :
  inputOption f <> Instalments -> 0 <= paidCount f.
Proof.
  unfold paidCount, payments, readPayments.
  destruct (inputOption f); intros N; cbn.
  - now elim N.
  - apply paidFromBalance_nonneg.
  - apply paidFromBalance_nonneg.
Qed.

Lemma paidInstalments_prefix (f : FormState) :
  0 <= paidCount f ->
  paidInstalments f = firstn (Z.to_nat (paidCount f)) (schedule f).
Proof. intros K. unfold paidInstalments. now apply slice_prefix. Qed.

Lemma scheduleFrom_length start months r e count i b :
  List.length (scheduleFrom start months r e count i b) = count.
Proof.
  revert i b. induction count as [| c IH]; intros i b; simpl; [reflexivity |].
  now rewrite IH.
Qed.

Lemma schedule_length (f : FormState) :
  len (schedule f) = Z.max 0 (numInstalments f).
Proof.
  unfold len, schedule. rewrite scheduleFrom_length. lia.
Qed.


(** C3.  In every input mode the reported balance is exactly the
    reported demand less the reported collection; the demand is the
    principal demand plus the interest demand, each the sum over the
    rows due on or before the as-of date; the collection is the sum of
    the principal and of the interest over the first [k] rows, [k] being
    the paid count. *)
Theorem balance_is_demand_less_collection
  (f : FormState) (res : CalculationResults) :
  handleCalculate f = Some res ->
  let due :=
    filter (fun row => date_le (dueDate row) (upToDate f))
      (amortizationSchedule res) in
  let paid := firstn (Z.to_nat (paidCount f)) (amortizationSchedule res) in
  balance res = (demand res - collection res)%js
  /\ demand res = (principalDemand res + interestDemand res)%js
  /\ principalDemand res = sumOf principalAmount due
  /\ interestDemand res = sumOf interestAmount due
  /\ collection res = (sumOf principalAmount paid + sumOf interestAmount paid)%js.
Proof.
  intros H due paid.
  pose proof (completed_paidCount f res H) as K.
  destruct (handleCalculate_fields f res H)
    as (Es & _ & _ & Epd & Eid & Ed & Ec & Eb & _).
  subst due paid. rewrite Es.
  rewrite <- (paidInstalments_prefix f K).
  repeat split; assumption.
Qed.

(** C4, as the code has it.  The reported outstanding principal is the
    principal less the paid principal less the principal of the schedule
    rows from the paid count up to the due count, and likewise for the
    interest; with the instalments option those two sums are the
    reported overdue amounts. *)
Theorem outstanding_from_schedule
  (f : FormState) (res : CalculationResults) :
  handleCalculate f = Some res ->
  let paid := firstn (Z.to_nat (paidCount f)) (amortizationSchedule res) in
  let unpaidDue :=
    slice (amortizationSchedule res) (paidCount f) (instalmentsDue f) in
  outstandingPrincipal res =
    (loanAmount f - sumOf principalAmount paid
     - sumOf principalAmount unpaidDue)%js
  /\ outstandingInterest res =
       (sumOf interestAmount (amortizationSchedule res)
        - sumOf interestAmount paid - sumOf interestAmount unpaidDue)%js
  /\ (inputOption f = Instalments ->
      overduePrincipal res = sumOf principalAmount unpaidDue
      /\ overdueInterest res = sumOf interestAmount unpaidDue
      /\ outstandingPrincipal res =
           (loanAmount f - sumOf principalAmount paid - overduePrincipal res)%js
      /\ outstandingInterest res =
           (sumOf interestAmount (amortizationSchedule res)
            - sumOf interestAmount paid - overdueInterest res)%js).
Proof.
  intros H paid unpaidDue.
  pose proof (completed_paidCount f res H) as K.
  destruct (handleCalculate_fields f res H)
    as (Es & _ & _ & _ & _ & _ & _ & _ & _ & Eop & Eoi & _ & _ & Evp & Evi & _).
  subst paid unpaidDue. rewrite Es.
  rewrite <- (paidInstalments_prefix f K). fold (overdueSchedule f).
  split; [exact Eop |]. split; [exact Eoi |].
  intros Mode. rewrite Mode in Evp, Evi.
  rewrite Evp, Evi. repeat split; assumption.
Qed.

(** C5.  With the outstanding option the handler completes, the total
    principal balance is the outstanding principal entered and the total
    interest balance the outstanding interest entered (each read as
    [parseFloat(..) || 0]), the overdue interest is the total interest
    balance, and the overdue principal is [max(0, total principal
    balance - outstanding principal)], the latter being derived from the
    schedule. *)
Theorem outstanding_option (f : FormState) :
  inputOption f = Outstanding ->
  exists res,
    handleCalculate f = Some res
    /\ totalPrincipalBalance res = orZero (principalOutstanding f)
    /\ totalInterestBalance res = orZero (interestOutstanding f)
    /\ (principalOutstanding f <> NaN ->
        totalPrincipalBalance res = principalOutstanding f)
    /\ (interestOutstanding f <> NaN ->
        totalInterestBalance res = interestOutstanding f)
    /\ overdueInterest res = totalInterestBalance res
    /\ overduePrincipal res =
         Math_max 0 (totalPrincipalBalance res - outstandingPrincipal res)%js
    /\ outstandingPrincipal res =
         (loanAmount f
          - sumOf principalAmount
              (firstn (Z.to_nat (paidCount f)) (amortizationSchedule res))
          - sumOf principalAmount
              (slice (amortizationSchedule res) (paidCount f)
                 (instalmentsDue f)))%js.
Proof.
  intros Mode.
  assert (K : 0 <= paidCount f) by (apply paidCount_derived; congruence).
  destruct (handleCalculate_completes f K) as (res & H).
  exists res. split; [exact H |].
  destruct (handleCalculate_fields f res H)
    as (Es & _ & _ & _ & _ & _ & _ & _ & _ & Eop & _ & Etp & Eti & Evp & Evi & _).
  rewrite Mode in Etp, Eti, Evp, Evi.
  assert (Pp : principalOut (payments f) = orZero (principalOutstanding f))
    by (unfold payments, readPayments; now rewrite Mode).
  assert (Pi : interestOut (payments f) = orZero (interestOutstanding f))
    by (unfold payments, readPayments; now rewrite Mode).
  rewrite Pp in Etp. rewrite Pi in Eti.
  rewrite Es, <- (paidInstalments_prefix f K). fold (overdueSchedule f).
  repeat split; try assumption.
  - intros N. now rewrite Etp, orZero_id.
  - intros N. now rewrite Eti, orZero_id.
Qed.

(** C6.  With the collection option the handler completes, the overdue
    principal is [max(0, principal demand - principal collected)] and
    the overdue interest [max(0, interest demand - interest collected)]
    (the collected amounts read as [parseFloat(..) || 0]), the demands
    being the sums over the rows due on or before the as-of date; neither
    overdue amount is below zero. *)
Theorem collection_option (f : FormState) :
  inputOption f = Collection ->
  exists res,
    handleCalculate f = Some res
    /\ let due :=
         filter (fun row => date_le (dueDate row) (upToDate f))
           (amortizationSchedule res) in
       overduePrincipal res =
         Math_max 0 (principalDemand res - orZero (principalCollection f))%js
       /\ overdueInterest res =
            Math_max 0 (interestDemand res - orZero (interestCollection f))%js
       /\ principalDemand res = sumOf principalAmount due
       /\ interestDemand res = sumOf interestAmount due
       /\ (overduePrincipal res < 0)%js = false
       /\ (overdueInterest res < 0)%js = false.
Proof.
  intros Mode.
  assert (K : 0 <= paidCount f) by (apply paidCount_derived; congruence).
  destruct (handleCalculate_completes f K) as (res & H).
  exists res. split; [exact H |].
  destruct (handleCalculate_fields f res H)
    as (Es & _ & _ & Epd & Eid & _ & _ & _ & _ & _ & _ & _ & _ & Evp & Evi & _).
  rewrite Mode in Evp, Evi.
  assert (Pp : principalColl (payments f) = orZero (principalCollection f))
    by (unfold payments, readPayments; now rewrite Mode).
  assert (Pi : interestColl (payments f) = orZero (interestCollection f))
    by (unfold payments, readPayments; now rewrite Mode).
  rewrite Pp in Evp. rewrite Pi in Evi.
  cbv zeta. rewrite Es. fold (dueRows f).
  repeat split; try assumption.
  - rewrite Evp. apply Math_max_0_not_negative.
  - rewrite Evi. apply Math_max_0_not_negative.
Qed.


Lemma sumOf_nil (g : AmortizationRow -> number) : sumOf g [] = ofZ 0.
Proof. reflexivity. Qed.

Lemma schedule_empty (f : FormState) : numInstalments f <= 0 -> schedule f = [].
Proof.
  intros N. unfold schedule.
  replace (Z.to_nat (numInstalments f)) with O by lia. reflexivity.
Qed.

(** C7, as the code has it.  With an instalment count of zero and a
    paid count that is not negative the handler completes with an empty
    schedule; the principal and interest demand, the demand, the
    collection, the balance, the number of overdue instalments and the
    outstanding interest are zero, the outstanding principal is the
    loan amount, and no overdue date or day count is reported. *)
Theorem zero_instalment_count (f : FormState) :
  numInstalments f = 0 ->
  0 <= paidCount f ->
  exists res,
    handleCalculate f = Some res
    /\ amortizationSchedule res = []
    /\ principalDemand res = ofZ 0
    /\ interestDemand res = ofZ 0
    /\ demand res = ofZ 0
    /\ collection res = ofZ 0
    /\ balance res = ofZ 0
    /\ installmentsToBePaid res = 0
    /\ outstandingPrincipal res = loanAmount f
    /\ outstandingInterest res = ofZ 0
    /\ overdueSinceDate res = None
    /\ overdueDays res = None.
Proof.
  intros N K.
  destruct (handleCalculate_completes f K) as (res & H).
  exists res. split; [exact H |].
  destruct (handleCalculate_fields f res H)
    as (Es & _ & _ & Epd & Eid & Ed & Ec & Eb & En & Eop & Eoi & _ & _ & _ & _
        & Esd & Eod).
  assert (S0 : schedule f = []) by (apply schedule_empty; lia).
  assert (D0 : dueRows f = []) by (unfold dueRows; now rewrite S0).
  assert (P0 : paidInstalments f = [])
    by (unfold paidInstalments; rewrite S0; apply slice_nil).
  assert (O0 : overdueSchedule f = [])
    by (unfold overdueSchedule; rewrite S0; apply slice_nil).
  assert (I0 : instalmentsDue f = 0) by (unfold instalmentsDue; now rewrite D0).
  rewrite D0, sumOf_nil in Epd, Eid.
  rewrite P0, sumOf_nil in Ec, Eop, Eoi.
  rewrite O0, sumOf_nil in Eop, Eoi. rewrite S0, sumOf_nil in Eoi.
  rewrite Epd, Eid, add_0_l in Ed. rewrite add_0_l in Ec.
  rewrite Ed, Ec, sub_0_r in Eb. rewrite !sub_0_r in Eop, Eoi.
  rewrite I0 in En.
  assert (Sd : overdueSince f = None).
  { unfold overdueSince. rewrite I0.
    replace (Z.max 0 (0 - paidCount f)) with 0 by lia. reflexivity. }
  rewrite Sd in Esd. rewrite Esd in Eod.
  repeat split; try assumption; try congruence.
  rewrite En. lia.
Qed.

(** C8.  When the number of overdue instalments is positive and the
    paid count [k] is below the length of the schedule, the overdue
    period starts on the due date of the row at index [k] and lasts
    [max(0, differenceInDays(as-of date, that date))] days; when [k] is
    at least the number of rows due by the as-of date there is no
    overdue instalment and no overdue date.  With twelve rows, six of
    them due and four paid, two instalments are overdue, since the due
    date of the row at index 4. *)
Theorem overdue_since (f : FormState) (res : CalculationResults) :
  handleCalculate f = Some res ->
  let k := paidCount f in
  let dueCount :=
    len (filter (fun row => date_le (dueDate row) (upToDate f))
           (amortizationSchedule res)) in
  (0 < installmentsToBePaid res ->
   k < len (amortizationSchedule res) ->
   exists row,
     nth_error (amortizationSchedule res) (Z.to_nat k) = Some row
     /\ overdueSinceDate res = Some (dueDate row)
     /\ overdueDays res =
          Some (Z.max 0 (differenceInDays (upToDate f) (dueDate row))))
  /\ (dueCount <= k ->
      installmentsToBePaid res = 0
      /\ overdueSinceDate res = None
      /\ overdueDays res = None)
  /\ (len (amortizationSchedule res) = 12 ->
      dueCount = 6 ->
      k = 4 ->
      installmentsToBePaid res = 2
      /\ exists row,
           nth_error (amortizationSchedule res) 4 = Some row
           /\ overdueSinceDate res = Some (dueDate row)).
Proof.
  intros H k dueCount.
  pose proof (completed_paidCount f res H) as K.
  destruct (handleCalculate_fields f res H)
    as (Es & _ & _ & _ & _ & _ & _ & _ & En & _ & _ & _ & _ & _ & _ & Esd & Eod).
  subst k dueCount. rewrite Es. fold (dueRows f). fold (instalmentsDue f).
  assert (Pos : forall row,
             0 < installmentsToBePaid res ->
             paidCount f < len (schedule f) ->
             nth_error (schedule f) (Z.to_nat (paidCount f)) = Some row ->
             overdueSinceDate res = Some (dueDate row)).
  { intros row O L N. rewrite Esd. unfold overdueSince.
    rewrite <- En.
    assert (C1 : (installmentsToBePaid res >? 0) = true)
      by (apply Z.gtb_lt; lia).
    assert (C2 : (paidCount f <? len (schedule f)) = true)
      by (apply Z.ltb_lt; lia).
    rewrite C1, C2. cbn [andb].
    destruct (index_Some (schedule f) (paidCount f)) as (x & I & N');
      [lia |].
    rewrite I. cbn. congruence. }
  split; [| split].
  - intros O L.
    destruct (index_Some (schedule f) (paidCount f)) as (row & _ & N); [lia |].
    exists row. split; [exact N |].
    pose proof (Pos row O L N) as S. split; [exact S |].
    rewrite Eod, S. reflexivity.
  - intros L.
    assert (Z0 : installmentsToBePaid res = 0) by (rewrite En; lia).
    assert (Sd : overdueSinceDate res = None).
    { rewrite Esd. unfold overdueSince. rewrite <- En, Z0. reflexivity. }
    split; [exact Z0 |]. split; [exact Sd |]. rewrite Eod, Sd. reflexivity.
  - intros L12 D6 K4.
    assert (N2 : installmentsToBePaid res = 2) by (rewrite En; lia).
    split; [exact N2 |].
    destruct (index_Some (schedule f) (paidCount f)) as (row & _ & N); [lia |].
    exists row. rewrite K4 in N. split; [exact N |].
    apply Pos; [lia | lia |]. rewrite K4. exact N.
Qed.

End Handler.

Import Scenarios.

(** A paid count that is not negative, on a closed form. *)
Ltac paid_count_ok := vm_compute; discriminate.

Lemma balance_is_demand_less_collection_witness :
  (exists res,
     handleCalculate fourPaid = Some res
     /\ balance res = (demand res - collection res)%js)
  /\ (exists res,
        handleCalculate outstandingEntered = Some res
        /\ balance res = (demand res - collection res)%js)
  /\ (exists res,
        handleCalculate collectionEntered = Some res
        /\ balance res = (demand res - collection res)%js).
Proof.
  split; [| split].
  - destruct (handleCalculate_completes fourPaid) as (res & E);
      [paid_count_ok |].
    exists res. split; [exact E |].
    apply (balance_is_demand_less_collection fourPaid res E).
  - destruct (handleCalculate_completes outstandingEntered) as (res & E);
      [paid_count_ok |].
    exists res. split; [exact E |].
    apply (balance_is_demand_less_collection outstandingEntered res E).
  - destruct (handleCalculate_completes collectionEntered) as (res & E);
      [paid_count_ok |].
    exists res. split; [exact E |].
    apply (balance_is_demand_less_collection collectionEntered res E).
Defined.

Lemma outstanding_from_schedule_witness :
  exists res,
    handleCalculate fourPaid = Some res
    /\ inputOption fourPaid = Instalments
    /\ outstandingPrincipal res =
         (loanAmount fourPaid
          - sumOf principalAmount
              (firstn (Z.to_nat (paidCount fourPaid)) (amortizationSchedule res))
          - overduePrincipal res)%js.
Proof.
  destruct (handleCalculate_completes fourPaid) as (res & E);
    [paid_count_ok |].
  exists res. split; [exact E |]. split; [reflexivity |].
  apply (outstanding_from_schedule fourPaid res E). reflexivity.
Defined.

(** C4 fails on the code: with the collection option the reported
    overdue principal is [max(0, principal demand - principal
    collected)], which is not the amount that was subtracted to obtain
    the reported outstanding principal. *)
Lemma outstanding_not_from_reported_overdue :
  exists res,
    handleCalculate collectionEntered = Some res
    /\ outstandingPrincipal res <>
         (loanAmount collectionEntered
          - sumOf principalAmount
              (firstn (Z.to_nat (paidCount collectionEntered))
                 (amortizationSchedule res))
          - overduePrincipal res)%js.
Proof.
  destruct (handleCalculate_completes collectionEntered) as (res & E);
    [paid_count_ok |].
  exists res. split; [exact E |].
  destruct (handleCalculate_fields collectionEntered res E)
    as (Es & _ & _ & Epd & _ & _ & _ & _ & _ & Eop & _ & _ & _ & Evp & _).
  cbn [inputOption collectionEntered loanForm] in Evp.
  rewrite Evp, Epd, Eop, Es.
  apply eqb_neq. vm_compute. reflexivity.
Qed.

Lemma outstanding_option_witness :
  inputOption outstandingEntered = Outstanding
  /\ exists res,
       handleCalculate outstandingEntered = Some res
       /\ totalPrincipalBalance res = ofZ 90000
       /\ totalInterestBalance res = ofZ 1500
       /\ overdueInterest res = ofZ 1500.
Proof.
  split; [reflexivity |].
  destruct (outstanding_option outstandingEntered eq_refl)
    as (res & H & Tp & Ti & _ & _ & Oi & _).
  exists res. split; [exact H |]. split; [exact Tp |]. split; [exact Ti |].
  rewrite Oi. exact Ti.
Defined.

Lemma collection_option_witness :
  inputOption collectionEntered = Collection
  /\ exists res,
       handleCalculate collectionEntered = Some res
       /\ overduePrincipal res = Math_max 0 (principalDemand res - 40000)%js
       /\ overdueInterest res = Math_max 0 (interestDemand res - 3000)%js.
Proof.
  split; [reflexivity |].
  destruct (collection_option collectionEntered eq_refl)
    as (res & H & Op & Oi & _).
  exists res. split; [exact H |]. split; [exact Op | exact Oi].
Defined.

Lemma zero_instalment_count_witness :
  numInstalments zeroCount = 0
  /\ 0 <= paidCount zeroCount
  /\ exists res,
       handleCalculate zeroCount = Some res
       /\ amortizationSchedule res = []
       /\ balance res = ofZ 0.
Proof.
  split; [reflexivity |]. split; [paid_count_ok |].
  destruct (zero_instalment_count zeroCount)
    as (res & H & S & _ & _ & _ & _ & B & _).
  - reflexivity.
  - paid_count_ok.
  - exists res. split; [exact H |]. split; [exact S | exact B].
Defined.

(** C7 fails on the code: with an instalment count of zero the
    instalment amount and the monthly EMI are [Infinity], and the
    outstanding principal and the total principal balance are the loan
    amount, not zero. *)
Lemma zero_count_reports_infinity :
  exists res,
    handleCalculate zeroCount = Some res
    /\ amortizationSchedule res = []
    /\ instalmentAmount res = PInf
    /\ emiPerMonth res = PInf
    /\ outstandingPrincipal res = ofZ 1000
    /\ totalPrincipalBalance res = ofZ 1000.
Proof.
  destruct (handleCalculate_completes zeroCount) as (res & E);
    [paid_count_ok |].
  exists res. split; [exact E |].
  destruct (handleCalculate_fields zeroCount res E)
    as (Es & Ei & Ee & _ & _ & _ & _ & _ & _ & Eop & _ & Etp & _).
  cbn [inputOption zeroCount] in Etp.
  rewrite Es, Ei, Ee, Eop, Etp.
  split; [reflexivity |].
  repeat split; apply eqb_eq; vm_compute; reflexivity.
Qed.

Lemma overdue_since_witness :
  exists res,
    handleCalculate fourPaid = Some res
    /\ installmentsToBePaid res = 2
    /\ overdueSinceDate res = Some (on 15 5 2024)
    /\ overdueDays res = Some 36.
Proof.
  destruct (handleCalculate_completes fourPaid) as (res & E);
    [paid_count_ok |].
  exists res. split; [exact E |].
  destruct (overdue_since fourPaid res E) as (_ & _ & Twelve).
  destruct (handleCalculate_fields fourPaid res E)
    as (Es & _ & _ & _ & _ & _ & _ & _ & _ & _ & _ & _ & _ & _ & _ & _ & Eod).
  rewrite Es in Twelve.
  destruct Twelve as (N2 & row & Nth & Sd);
    [vm_compute; reflexivity .. |].
  split; [exact N2 |].
  assert (Dd : dueDate row = on 15 5 2024).
  { assert (R : option_map dueDate (nth_error (schedule fourPaid) 4)
                = Some (on 15 5 2024)) by (vm_compute; reflexivity).
    rewrite Nth in R. now injection R. }
  rewrite Eod, Sd, Dd. split; [reflexivity |]. vm_compute. reflexivity.
Defined.
End DCBFacts.

(** ** The amortization schedule *)

Module ScheduleFacts.
Import Reference.

Section ExactArithmetic.
Local Open Scope Qc_scope.










End ExactArithmetic.

Section Powers.
Context {M : MathLib}.

Lemma one_plus (r : Qc) : (1 + Fin r)%js = Fin (1 + r)%Qc.
Proof. reflexivity. Qed.

Lemma Math_pow_nat (q : Qc) (n : Z) :
  0 <= n -> Math_pow (Fin q) n = Fin (q ^ Z.to_nat n)%Qc.
Proof.
  intros N. rewrite Math_pow_integer. unfold powZ.
  assert (E : (n <? 0) = false) by (apply Z.ltb_ge; lia). now rewrite E.
Qed.

(** [Math.pow(1, n)] is 1 at every integer [n]. *)
Lemma Math_pow_one (n : Z) : Math_pow (Fin 1%Qc) n = Fin 1%Qc.
Proof.
  rewrite Math_pow_integer. unfold powZ.
  destruct (n <? 0); rewrite Qcpower_1; reflexivity.
Qed.

(** The instalment formula at a rate of zero: [0 / 0]. *)
Lemma formula_zero_rate (principal : number) (n : Z) :
  ((principal * Fin 0%Qc * Math_pow (1 + Fin 0%Qc) n)
   / (Math_pow (1 + Fin 0%Qc) n - 1))%js = NaN.
Proof.
  rewrite one_plus. replace (1 + 0)%Qc with 1%Qc by ring.
  rewrite Math_pow_one.
  destruct principal as [p | | |]; try reflexivity.
  cbn [mul]. replace (p * 0 * 1)%Qc with 0%Qc by ring. reflexivity.
Qed.

End Powers.

Section Rows.
Context {D : DateFns}.
Import DCBCalculator.

(** The loops of the two pages are the same loop. *)
Lemma rowsFrom_scheduleFrom start months r e count i b :
  LoanCalculator.rowsFrom start months r e count i b
  = scheduleFrom start months r e count i b.
Proof.
  revert i b. induction count as [| c IH]; intros i b; simpl;
    [reflexivity | now rewrite IH].
Qed.

Lemma sum_principal_from start months (r e : Qc) count i (b a : Qc) :
  fold_left (fun sum row => (sum + principalAmount row)%js)
    (scheduleFrom start months (Fin r) (Fin e) count i (Fin b)) (Fin a)
  = Fin (a + (b - balanceAfter r e count b))%Qc.
Proof.
  revert i b a. induction count as [| c IH]; intros i b a.
  - simpl. f_equal. ring.
  - cbn [scheduleFrom fold_left principalAmount mul sub neg add].
    rewrite IH. cbn [balanceAfter]. f_equal.
    unfold Qcminus. ring.
Qed.

Lemma sum_principal start months (r e : Qc) count (p : Qc) :
  sumOf principalAmount
    (scheduleFrom start months (Fin r) (Fin e) count 0 (Fin p))
  = Fin (p - balanceAfter r e count p)%Qc.
Proof.
  unfold sumOf, ofZ. rewrite sum_principal_from. f_equal.
  change (Q2Qc (inject_Z 0)) with 0%Qc. ring.
Qed.


Lemma last_balance start months (r e : Qc) c i (b : Qc) :
  exists row,
    nth_error (scheduleFrom start months (Fin r) (Fin e) (S c) i (Fin b)) c
    = Some row
    /\ principalBalance row = Fin (balanceAfter r e (S c) b).
Proof.
  revert i b. induction c as [| c IH]; intros i b.
  - eexists. split; reflexivity.
  - destruct (IH (i + 1) (b - (e - b * r))%Qc) as (row & N & B).
    exists row. split; [| exact B].
    cbn [scheduleFrom mul sub neg add nth_error] in *. exact N.
Qed.

(** Every row computed from a [NaN] instalment is [NaN]. *)
Lemma rows_NaN start months r count i b :
  Forall rowIsNaN (scheduleFrom start months r NaN count i b).
Proof.
  revert i b. induction count as [| c IH]; intros i b.
  - constructor.
  - cbn [scheduleFrom]. constructor.
    + unfold rowIsNaN. cbn. repeat split. destruct b; reflexivity.
    + apply IH.
Qed.

End Rows.

Section Handlers.
Context {D : DateFns} {M : MathLib}.
Import DCBCalculator.

Lemma loan_stored (g : LoanCalculator.FormState) :
  LoanCalculator.emi (LoanCalculator.handleCalculate g)
  = ((LoanCalculator.loanAmount g * LoanCalculator.ratePerPeriod g
      * Math_pow (1 + LoanCalculator.ratePerPeriod g)
          (LoanCalculator.numInstalments g))
     / (Math_pow (1 + LoanCalculator.ratePerPeriod g)
          (LoanCalculator.numInstalments g) - 1))%js
  /\ LoanCalculator.schedule (LoanCalculator.handleCalculate g)
     = scheduleFrom (LoanCalculator.instalmentStartDate g)
         (LoanCalculator.getMonthsToAdd (LoanCalculator.instalmentFreq g))
         (LoanCalculator.ratePerPeriod g)
         (LoanCalculator.emi (LoanCalculator.handleCalculate g))
         (Z.to_nat (LoanCalculator.numInstalments g)) 0
         (LoanCalculator.loanAmount g).
Proof.
  split; [reflexivity |].
  unfold LoanCalculator.handleCalculate. cbv zeta.
  cbn [LoanCalculator.schedule LoanCalculator.emi].
  rewrite rowsFrom_scheduleFrom. reflexivity.
Qed.

(** C1, on the code.  Whenever the effective rate of the instalment
    period is 0, the instalment amount that either page computes is
    [NaN], and so are the principal amount, the instalment and the
    balance of every row of the schedule: the formula is evaluated as
    [0 / 0] and there is no branch for a rate of zero. *)
Theorem zero_rate_gives_NaN :
  (forall (f : FormState) (res : CalculationResults),
      ratePerPeriod f = Fin 0%Qc ->
      handleCalculate f = Some res ->
      instalmentAmount res = NaN
      /\ Forall rowIsNaN (amortizationSchedule res))
  /\ (forall g : LoanCalculator.FormState,
         LoanCalculator.ratePerPeriod g = Fin 0%Qc ->
         LoanCalculator.emi (LoanCalculator.handleCalculate g) = NaN
         /\ Forall rowIsNaN
              (LoanCalculator.schedule (LoanCalculator.handleCalculate g))).
Proof.
  split.
  - intros f res R H.
    destruct (DCBFacts.handleCalculate_fields f res H) as (Es & Ei & _).
    assert (N : instalment f = NaN)
      by (unfold instalment; rewrite R; apply formula_zero_rate).
    split; [congruence |].
    rewrite Es. unfold schedule. rewrite N. apply rows_NaN.
  - intros g R.
    destruct (loan_stored g) as (Ee & Es).
    assert (N : LoanCalculator.emi (LoanCalculator.handleCalculate g) = NaN)
      by (rewrite Ee, R; apply formula_zero_rate).
    split; [exact N |].
    rewrite Es, N. apply rows_NaN.
Qed.



End Handlers.

Import Scenarios.

Lemma zero_rate_gives_NaN_witness :
  DCBCalculator.ratePerPeriod zeroRate = Fin 0%Qc
  /\ (exists res,
         DCBCalculator.handleCalculate zeroRate = Some res
         /\ DCBCalculator.instalmentAmount res = NaN)
  /\ LoanCalculator.ratePerPeriod zeroRateLoan = Fin 0%Qc
  /\ LoanCalculator.emi (LoanCalculator.handleCalculate zeroRateLoan) = NaN.
Proof.
  assert (R : DCBCalculator.ratePerPeriod zeroRate = Fin 0%Qc)
    by (apply eqb_eq; vm_compute; reflexivity).
  assert (R' : LoanCalculator.ratePerPeriod zeroRateLoan = Fin 0%Qc)
    by (apply eqb_eq; vm_compute; reflexivity).
  split; [exact R |]. split; [| split; [exact R' |]].
  - destruct (DCBFacts.handleCalculate_completes zeroRate) as (res & E);
      [vm_compute; discriminate |].
    exists res. split; [exact E |].
    apply (proj1 zero_rate_gives_NaN zeroRate res R E).
  - apply (proj2 zero_rate_gives_NaN zeroRateLoan R').
Defined.


End ScheduleFacts.

(** ** The schedule in binary64 *)

Module RoundingFacts.
Import PrimFloat Binary64.


End RoundingFacts.

(** ** The deposit calculator *)

Module DepositFacts.
Import Deposit Reference.

Section PayoutLoop.
Variables D ratePct : number.

Lemma payoutLoop_length count m b c :
  List.length (rows (payoutLoop D ratePct count m b c)) = count.
Proof.
  revert m b c. induction count as [| k IH]; intros m b c; simpl;
    [reflexivity | now rewrite IH].
Qed.

Lemma payoutLoop_unfold k m b c :
  rows (payoutLoop D ratePct (S k) m b c)
  = mkTableRow m D (c + payoutInterest b D ratePct)%js (b + D)%js
    :: rows (payoutLoop D ratePct k (m + 1) (b + D)%js
               (c + payoutInterest b D ratePct)%js).
Proof.
  cbn [payoutLoop rows]. unfold payoutInterest. now rewrite mul_1_r.
Qed.

Lemma payoutLoop_final k m b c :
  loopBalance (payoutLoop D ratePct (S k) m b c)
  = loopBalance (payoutLoop D ratePct k (m + 1) (b + D)%js
                   (c + payoutInterest b D ratePct)%js).
Proof.
  cbn [payoutLoop loopBalance]. unfold payoutInterest. now rewrite mul_1_r.
Qed.

(** The first row of the table. *)
Lemma payoutLoop_first count m b c row :
  nth_error (rows (payoutLoop D ratePct count m b c)) 0 = Some row ->
  month row = m
  /\ contribution row = D
  /\ balance row = (b + D)%js
  /\ interest row = (c + payoutInterest b D ratePct)%js.
Proof.
  destruct count as [| k]; [discriminate |].
  rewrite payoutLoop_unfold. cbn [nth_error].
  intros [= <-]. repeat split.
Qed.

(** Each further row of the table, from the row before it. *)
Lemma payoutLoop_next count m b c i row next :
  nth_error (rows (payoutLoop D ratePct count m b c)) i = Some row ->
  nth_error (rows (payoutLoop D ratePct count m b c)) (S i) = Some next ->
  month next = month row + 1
  /\ contribution next = D
  /\ balance next = (balance row + D)%js
  /\ interest next = (interest row + payoutInterest (balance row) D ratePct)%js.
Proof.
  revert m b c i. induction count as [| k IH]; intros m b c i; [discriminate |].
  rewrite payoutLoop_unfold. destruct i as [| i]; cbn [nth_error].
  - intros [= <-] N. cbn [month balance interest].
    now apply payoutLoop_first in N.
  - apply IH.
Qed.

End PayoutLoop.

Section ExactArithmetic.
Local Open Scope Qc_scope.

Lemma natQc_S (k : nat) : natQc (S k) = natQc k + 1.
Proof.
  unfold natQc. apply Qc_is_canon.
  rewrite Nat2Z.inj_succ. unfold Z.succ. rewrite inject_Z_plus.
  cbn [this Q2Qc Qcplus]. rewrite !Qred_correct. reflexivity.
Qed.

Lemma natQc_0 : natQc 0 = 0.
Proof. reflexivity. Qed.

Lemma natQc_of_Z (n : Z) : (0 <= n)%Z -> Q2Qc (inject_Z n) = natQc (Z.to_nat n).
Proof. intros N. unfold natQc. now rewrite Z2Nat.id. Qed.

(** With finite amounts the balance of every row is the principal plus
    the contributions so far, and so is the final balance. *)
Lemma payoutLoop_balances (d : Qc) ratePct count m (p : Qc) c :
  (forall i row,
      nth_error (rows (payoutLoop (Fin d) ratePct count m (Fin p) c)) i
      = Some row ->
      balance row = Fin (p + natQc (S i) * d))
  /\ loopBalance (payoutLoop (Fin d) ratePct count m (Fin p) c)
     = Fin (p + natQc count * d).
Proof.
  revert m p c. induction count as [| k IH]; intros m p c.
  - split.
    + intros i row N. destruct i; discriminate.
    + cbn. f_equal. rewrite natQc_0. ring.
  - destruct (IH (m + 1)%Z (p + d)
                (c + payoutInterest (Fin p) (Fin d) ratePct)%js) as (Rows & Final).
    split.
    + intros i row. rewrite payoutLoop_unfold. destruct i as [| i]; cbn [nth_error].
      * intros [= <-]. cbn. f_equal. rewrite natQc_S, natQc_0. ring.
      * intros N. cbn [add] in N. rewrite (Rows i row N). f_equal.
        rewrite (natQc_S (S i)). ring.
    + rewrite payoutLoop_final. cbn [add]. rewrite Final. f_equal.
      rewrite natQc_S. ring.
Qed.

End ExactArithmetic.

Section Handler.
Context {M : MathLib}.

Lemma termMonths_nonneg (s : State) : 0 <= termMonths s.
Proof. unfold termMonths. lia. Qed.

(** C9.  With the interest paid out monthly, the table has one row per
    month of the term; the interest of each month is [(balance +
    contribution) * rate / (1200 + rate)] on the balance before that
    month's contribution, added to the cumulative interest and never to
    the balance, which grows by the contribution alone; with finite
    amounts the balance after [m] months is the principal plus [m]
    contributions and the maturity value is the principal plus all
    contributions.  For a principal of 100000 at 12% with no
    contribution the balance stays 100000 and the interest of every
    month is 100000 * 12 / 1212, within half a cent of 990.10. *)
Theorem interest_paid_out_monthly (s : State) :
  paymentMethod s = monthly_interest ->
  let res := fst (handleCalc s) in
  let table := snd (handleCalc s) in
  let P := orZero (principal s) in
  let D := orZero (monthly s) in
  let ratePct := orZero (rate s) in
  len table = termMonths s
  /\ (forall first,
         nth_error table 0 = Some first ->
         month first = 1
         /\ balance first = (P + D)%js
         /\ interest first = payoutInterest P D ratePct)
  /\ (forall i row next,
         nth_error table i = Some row ->
         nth_error table (S i) = Some next ->
         month next = month row + 1
         /\ balance next = (balance row + D)%js
         /\ interest next
            = (interest row + payoutInterest (balance row) D ratePct)%js)
  /\ (forall p d : Qc,
         P = Fin p ->
         D = Fin d ->
         (forall i row,
             nth_error table i = Some row ->
             balance row = Fin (p + natQc (S i) * d)%Qc)
         /\ maturityValue res
            = Fin (p + natQc (Z.to_nat (termMonths s)) * d)%Qc
         /\ maturityValue res = totalPrincipal res)
  /\ (principal s = ofZ 100000 ->
      rate s = ofZ 12 ->
      D = ofZ 0 ->
      let monthly := Fin (Q2Qc (100000 # 101)) in
      (forall i row, nth_error table i = Some row -> balance row = ofZ 100000)
      /\ (forall first, nth_error table 0 = Some first -> interest first = monthly)
      /\ (forall i row next,
             nth_error table i = Some row ->
             nth_error table (S i) = Some next ->
             interest next = (interest row + monthly)%js)
      /\ withinAbsolute halfCent monthly (ofQ 990.10)).
Proof.
  intros Mode res table P D ratePct.
  assert (T : table
              = rows (payoutLoop D ratePct (Z.to_nat (termMonths s)) 1 P 0)).
  { subst table. unfold handleCalc. now rewrite Mode. }
  assert (R : res
              = mkResult (P + D * termMonths s)%js
                  (cumInterest
                     (payoutLoop D ratePct (Z.to_nat (termMonths s)) 1 P 0))
                  (loopBalance
                     (payoutLoop D ratePct (Z.to_nat (termMonths s)) 1 P 0))
                  (apy res)).
  { subst res. unfold handleCalc. now rewrite Mode. }
  pose proof (termMonths_nonneg s) as N.
  assert (Closed : forall p d : Qc,
             P = Fin p ->
             D = Fin d ->
             (forall i row,
                 nth_error table i = Some row ->
                 balance row = Fin (p + natQc (S i) * d)%Qc)
             /\ maturityValue res
                = Fin (p + natQc (Z.to_nat (termMonths s)) * d)%Qc
             /\ maturityValue res = totalPrincipal res).
  { intros p d Ep Ed. rewrite T, R, Ep, Ed.
    destruct (payoutLoop_balances d ratePct (Z.to_nat (termMonths s)) 1 p 0)
      as (Rows & Final).
    split; [exact Rows |]. cbn [maturityValue totalPrincipal].
    split; [exact Final |]. rewrite Final. cbn [mul add ofZ].
    f_equal. rewrite natQc_of_Z by exact N. ring. }
  assert (First : forall first,
             nth_error table 0 = Some first ->
             month first = 1
             /\ balance first = (P + D)%js
             /\ interest first = payoutInterest P D ratePct).
  { intros first F. rewrite T in F.
    apply payoutLoop_first in F as (Fm & _ & Fb & Fi).
    rewrite add_0_l in Fi. now repeat split. }
  assert (Next : forall i row next,
             nth_error table i = Some row ->
             nth_error table (S i) = Some next ->
             month next = month row + 1
             /\ balance next = (balance row + D)%js
             /\ interest next
                = (interest row + payoutInterest (balance row) D ratePct)%js).
  { intros i row next Ri Rn. rewrite T in Ri, Rn.
    destruct (payoutLoop_next _ _ _ _ _ _ _ _ _ Ri Rn) as (Nm & _ & Nb & Ni).
    now repeat split. }
  split; [| split; [exact First | split; [exact Next | split; [exact Closed |]]]].
  - rewrite T. unfold len. rewrite payoutLoop_length. lia.
  - intros Ep Er Ed monthly.
    assert (EP : P = ofZ 100000) by (subst P; rewrite Ep; reflexivity).
    assert (ER : ratePct = ofZ 12) by (subst ratePct; rewrite Er; reflexivity).
    assert (Rows : forall i row,
               nth_error table i = Some row -> balance row = ofZ 100000).
    { intros i row Ri.
      destruct (Closed (Q2Qc 100000) (Q2Qc 0) EP Ed) as (Rows & _).
      rewrite (Rows i row Ri). unfold ofZ. f_equal.
      change (Q2Qc (inject_Z 100000)) with (Q2Qc 100000). ring. }
    assert (C : payoutInterest 100000 0 12 = monthly)
      by (apply eqb_eq; vm_compute; reflexivity).
    split; [exact Rows | split; [| split]].
    + intros first F. destruct (First first F) as (_ & _ & Fi).
      now rewrite Fi, EP, Ed, ER.
    + intros i row next Ri Rn. destruct (Next i row next Ri Rn) as (_ & _ & Ni).
      now rewrite Ni, (Rows i row Ri), Ed, ER.
    + vm_compute. discriminate.
Qed.


(** The monthly rate of 12% a year compounded monthly is 1%. *)
Lemma lumpSum_rate : monthlyRate Scenarios.lumpSum = Fin (Q2Qc (1 # 100)).
Proof.
  unfold monthlyRate.
  replace (compoundsPerYear (comp Scenarios.lumpSum)) with 12 by reflexivity.
  replace (12 >? 0) with true by reflexivity.
  replace (1 + orZero (rate Scenarios.lumpSum) / 100 / 12)%js
    with (Fin (Q2Qc (101 # 100)))
    by (symmetry; apply eqb_eq; vm_compute; reflexivity).
  replace (ofZ 12 / ofZ 12)%js with (ofZ 1)
    by (symmetry; apply eqb_eq; vm_compute; reflexivity).
  rewrite Math_pow_integer.
  apply eqb_eq. vm_compute. reflexivity.
Qed.

(** C10, as the code has it.  At maturity with a compounding frequency
    the maturity value is [principal * (1+j)^termMonths] plus, for a
    contribution above zero and [j] other than zero, the annuity-due
    term [contribution * ((1+j)^termMonths - 1) / j * (1+j)], and
    otherwise [contribution * termMonths]; the interest amount is
    [max(0, maturity value - total contributed)].  For a principal of
    100000 at 12% compounded monthly over twelve months with no
    contribution the maturity value is 100000 * 1.01^12, within half a
    cent of 112682.50. *)
Theorem maturity_with_compounding (s : State) :
  paymentMethod s = maturity ->
  0 < compoundsPerYear (comp s) ->
  let res := fst (handleCalc s) in
  let P := orZero (principal s) in
  let D := orZero (monthly s) in
  let n := termMonths s in
  let j := monthlyRate s in
  let lump := (P * Math_pow (1 + j) n)%js in
  let annuityDue := (D * ((Math_pow (1 + j) n - 1) / j) * (1 + j))%js in
  ((D > 0)%js = true -> strict_ne j 0 = true ->
   maturityValue res = (lump + annuityDue)%js)
  /\ ((D > 0)%js = false \/ strict_ne j 0 = false ->
      maturityValue res = (lump + D * n)%js)
  /\ totalPrincipal res = (P + D * n)%js
  /\ interestAmount res = Math_max 0 (maturityValue res - totalPrincipal res)%js
  /\ (s = Scenarios.lumpSum ->
      j = Fin (Q2Qc (1 # 100))
      /\ maturityValue res = Fin (Q2Qc 100000 * Q2Qc (101 # 100) ^ 12)%Qc
      /\ withinAbsolute halfCent (maturityValue res) (ofQ 112682.50)).
Proof.
  intros Mode Comp res P D n j lump annuityDue.
  assert (Z : (compoundsPerYear (comp s) =? 0) = false)
    by (apply Z.eqb_neq; lia).
  assert (R : res
              = mkResult (P + D * n)%js
                  (Math_max 0
                     ((lump + (if (D > 0)%js && strict_ne j 0
                               then annuityDue else (D * n)%js))
                      - (P + D * n))%js)
                  (lump + (if (D > 0)%js && strict_ne j 0
                           then annuityDue else (D * n)%js))%js
                  (apy res)).
  { subst res. unfold handleCalc. rewrite Mode, Z. reflexivity. }
  split; [| split; [| split; [| split]]].
  - intros Dp Jn. rewrite R. cbn [maturityValue]. now rewrite Dp, Jn.
  - intros [Dn | Jz]; rewrite R; cbn [maturityValue].
    + now rewrite Dn.
    + rewrite Jz. now rewrite andb_false_r.
  - rewrite R. reflexivity.
  - rewrite R. reflexivity.
  - intros ->.
    assert (J : j = Fin (Q2Qc (1 # 100))) by (subst j; apply lumpSum_rate).
    assert (V : maturityValue res
                = Fin (Q2Qc 100000 * Q2Qc (101 # 100) ^ 12)%Qc).
    { rewrite R. cbn [maturityValue]. subst lump annuityDue P D n.
      rewrite J.
      replace (orZero (monthly Scenarios.lumpSum)) with (ofZ 0) by reflexivity.
      replace ((ofZ 0 > 0)%js) with false by reflexivity. cbn [andb].
      replace (termMonths Scenarios.lumpSum) with 12 by reflexivity.
      replace (1 + Fin (Q2Qc (1 # 100)))%js with (Fin (Q2Qc (101 # 100)))
        by (symmetry; apply eqb_eq; vm_compute; reflexivity).
      rewrite ScheduleFacts.Math_pow_nat by lia.
      apply eqb_eq. vm_compute. reflexivity. }
    split; [exact J |]. split; [exact V |].
    rewrite V. vm_compute. discriminate.
Qed.

End Handler.

Import Scenarios.

Lemma interest_paid_out_monthly_witness :
  paymentMethod monthlyPayout = monthly_interest
  /\ len (snd (handleCalc monthlyPayout)) = 12
  /\ maturityValue (fst (handleCalc monthlyPayout)) = ofZ 100000.
Proof.
  split; [reflexivity |].
  destruct (interest_paid_out_monthly monthlyPayout eq_refl)
    as (Len & _ & _ & Closed & _).
  split; [exact Len |].
  destruct (Closed (Q2Qc 100000) (Q2Qc 0) eq_refl eq_refl) as (_ & Mv & _).
  rewrite Mv. apply eqb_eq. vm_compute. reflexivity.
Defined.

Lemma maturity_with_compounding_witness :
  paymentMethod saving = maturity
  /\ 0 < compoundsPerYear (comp saving)
  /\ maturityValue (fst (handleCalc saving))
     = (100000 * Math_pow (1 + monthlyRate saving) 12
        + 1000 * ((Math_pow (1 + monthlyRate saving) 12 - 1) / monthlyRate saving)
          * (1 + monthlyRate saving))%js.
Proof.
  split; [reflexivity |]. split; [reflexivity |].
  apply (maturity_with_compounding saving); reflexivity.
Defined.

(** C10 fails on the code: for a contribution below zero the handler
    adds [contribution * termMonths], not the annuity-due term. *)
Lemma negative_contribution_is_not_compounded :
  paymentMethod withdrawing = maturity
  /\ 0 < compoundsPerYear (comp withdrawing)
  /\ strict_ne (monthlyRate withdrawing) 0 = true
  /\ maturityValue (fst (handleCalc withdrawing))
     <> (100000 * Math_pow (1 + monthlyRate withdrawing) 12
         + (-100) * ((Math_pow (1 + monthlyRate withdrawing) 12 - 1)
                     / monthlyRate withdrawing)
           * (1 + monthlyRate withdrawing))%js.
Proof.
  split; [reflexivity |]. split; [reflexivity |]. split; [reflexivity |].
  apply eqb_neq. vm_compute. reflexivity.
Qed.

End DepositFacts.

(* ------------------------------------------------------------------ *)
(** * Further properties *)

(** ** Frequencies and period rates *)

Module RateFacts.

Section ExactArithmetic.
Local Open Scope Qc_scope.

Lemma Q2Qc_inject_mult (x y : Z) :
  Q2Qc (inject_Z (x * y)) = Q2Qc (inject_Z x) * Q2Qc (inject_Z y).
Proof.
  apply Qc_is_canon. rewrite inject_Z_mult.
  cbn [this Q2Qc Qcmult]. rewrite !Qred_correct. reflexivity.
Qed.

Lemma Q2Qc_inject_nonzero (k : Z) : k <> 0%Z -> Q2Qc (inject_Z k) <> 0.
Proof.
  intros K H. apply (f_equal this) in H. cbn [this Q2Qc] in H.
  rewrite Qred_inject_Z in H. change (Qred 0) with (inject_Z 0) in H.
  injection H as H. contradiction.
Qed.

(** [ppy * (months / 12)] is the integer [k] when [ppy * months = 12 k]. *)
Lemma whole_periods (ppy months k : Z) :
  (ppy * months = 12 * k)%Z ->
  (ofZ ppy * (ofZ months / ofZ 12))%js = ofZ k.
Proof.
  intros E. unfold ofZ.
  rewrite div_Fin by (apply Q2Qc_inject_nonzero; discriminate).
  cbn [mul]. f_equal.
  assert (H : Q2Qc (inject_Z ppy) * Q2Qc (inject_Z months)
              = Q2Qc (inject_Z 12) * Q2Qc (inject_Z k))
    by (rewrite <- !Q2Qc_inject_mult; now rewrite E).
  pose proof (Q2Qc_inject_nonzero 12 ltac:(discriminate)) as N.
  transitivity (Q2Qc (inject_Z ppy) * Q2Qc (inject_Z months) / Q2Qc (inject_Z 12)).
  - field. exact N.
  - rewrite H. field. exact N.
Qed.

End ExactArithmetic.

Ltac listed :=
  split; [reflexivity | cbn; repeat (first [left; reflexivity | right])].

Lemma months_table (frequency : string) :
  LoanCalculator.getMonthsToAdd frequency
  = DCBCalculator.getMonthsToAdd frequency
  /\ In (DCBCalculator.getMonthsToAdd frequency) [1; 3; 6; 12].
Proof.
  unfold LoanCalculator.getMonthsToAdd, DCBCalculator.getMonthsToAdd.
  destruct (String.eqb frequency "daily") eqn:Daily.
  - apply String.eqb_eq in Daily. subst frequency. listed.
  - destruct (String.eqb frequency "monthly"); [listed |].
    destruct (String.eqb frequency "quarterly"); [listed |].
    destruct (String.eqb frequency "half-yearly"); [listed |].
    destruct (String.eqb frequency "yearly"); listed.
Qed.

(** X1.  The two pages step the due dates by the same number of months
    for every frequency text, and that number is 1, 3, 6 or 12. *)
Theorem months_per_instalment (frequency : string) :
  LoanCalculator.getMonthsToAdd frequency
  = DCBCalculator.getMonthsToAdd frequency
  /\ In (DCBCalculator.getMonthsToAdd frequency) [1; 3; 6; 12].
Proof.
  unfold LoanCalculator.getMonthsToAdd, DCBCalculator.getMonthsToAdd.
  destruct (String.eqb frequency "daily") eqn:Daily.
  - apply String.eqb_eq in Daily. subst frequency. listed.
  - destruct (String.eqb frequency "monthly"); [listed |].
    destruct (String.eqb frequency "quarterly"); [listed |].
    destruct (String.eqb frequency "half-yearly"); [listed |].
    destruct (String.eqb frequency "yearly"); listed.
Qed.

Section Handler.
Context {M : MathLib}.

Lemma compound_rate (ppy months k : Z) (a : Qc) :
  ppy <> 0 ->
  ppy * months = 12 * k ->
  0 <= k ->
  (Math_pow (1 + Fin a / ofZ ppy) (ofZ ppy * (ofZ months / ofZ 12)) - 1)%js
  = Fin ((1 + a / Q2Qc (inject_Z ppy)) ^ Z.to_nat k - 1)%Qc.
Proof.
  intros P E K. rewrite (whole_periods ppy months k E).
  unfold ofZ at 2. rewrite div_Fin by now apply Q2Qc_inject_nonzero.
  rewrite ScheduleFacts.one_plus, ScheduleFacts.Math_pow_nat by exact K.
  reflexivity.
Qed.

Ltac decide_texts :=
  repeat match goal with
    | |- context [String.eqb ?x ?y] =>
        let b := eval vm_compute in (String.eqb x y) in
        change (String.eqb x y) with b
    | |- context [Deposit.compoundsPerYear ?x] =>
        let v := eval vm_compute in (Deposit.compoundsPerYear x) in
        change (Deposit.compoundsPerYear x) with v
    end;
  cbv beta iota zeta.

(** X2.  For a finite annual rate [a] compounded [ppy] times a year
    (daily, monthly, quarterly, half-yearly or yearly) and an instalment
    period of [months] months holding a whole number [k] of compounding
    periods, the rate of the instalment period is [(1 + a/ppy)^k - 1] on
    both pages; it is [a/ppy] when interest is compounded once per
    instalment. *)
Theorem rate_of_whole_periods (frequency : string) (months k : Z) (a : Qc) :
  In frequency ["daily"; "monthly"; "quarterly"; "half-yearly"; "yearly"]%string ->
  Deposit.compoundsPerYear frequency * months = 12 * k ->
  0 <= k ->
  let ppy := Q2Qc (inject_Z (Deposit.compoundsPerYear frequency)) in
  DCBCalculator.getRatePerPeriod (Fin a) frequency months
  = Fin ((1 + a / ppy) ^ Z.to_nat k - 1)%Qc
  /\ LoanCalculator.getRatePerPeriod (Fin a) frequency months
     = Fin ((1 + a / ppy) ^ Z.to_nat k - 1)%Qc
  /\ (k = 1 ->
      DCBCalculator.getRatePerPeriod (Fin a) frequency months = Fin (a / ppy)%Qc).
Proof.
  intros F E K ppy. subst ppy.
  assert (R : DCBCalculator.getRatePerPeriod (Fin a) frequency months
              = Fin ((1 + a / Q2Qc (inject_Z (Deposit.compoundsPerYear frequency)))
                     ^ Z.to_nat k - 1)%Qc
              /\ LoanCalculator.getRatePerPeriod (Fin a) frequency months
                 = Fin ((1 + a / Q2Qc (inject_Z (Deposit.compoundsPerYear frequency)))
                        ^ Z.to_nat k - 1)%Qc).
  { cbn [In] in F.
    destruct F as [<- | [<- | [<- | [<- | [<- | []]]]]];
      unfold DCBCalculator.getRatePerPeriod, LoanCalculator.getRatePerPeriod;
      revert E; decide_texts; intros E;
      (split; (apply compound_rate; [discriminate | exact E | exact K])). }
  destruct R as (R1 & R2).
  split; [exact R1 |]. split; [exact R2 |].
  intros ->. rewrite R1. f_equal.
  change (Z.to_nat 1) with 1%nat. cbn [Qcpower].
  generalize (a / Q2Qc (inject_Z (Deposit.compoundsPerYear frequency)))%Qc.
  intros x. ring.
Qed.

End Handler.

Lemma rate_of_whole_periods_witness :
  DCBCalculator.getRatePerPeriod (Fin (Q2Qc (12 # 100))) "quarterly" 3
  = Fin (Q2Qc (12 # 100) / Q2Qc (inject_Z 4))%Qc.
Proof.
  apply (rate_of_whole_periods "quarterly" 3 1 (Q2Qc (12 # 100))).
  - cbn. auto.
  - reflexivity.
  - discriminate.
  - reflexivity.
Defined.

End RateFacts.

(** ** The rows of the schedule *)

Module RowFacts.
Import Reference Shapes DCBCalculator.

Section Rows.
Context {D : DateFns}.

Lemma scheduleFrom_nth start months r e count i0 b (k : nat) :
  (k < count)%nat ->
  exists row,
    nth_error (scheduleFrom start months r e count i0 b) k = Some row
    /\ installmentNumber row = i0 + Z.of_nat k + 1
    /\ dueDate row = addMonths start ((i0 + Z.of_nat k) * months)
    /\ totalInstallment row = e.
Proof.
  revert i0 b k. induction count as [| c IH]; intros i0 b k K; [lia |].
  destruct k as [| k].
  - eexists. split; [reflexivity |]. cbn.
    rewrite Z.add_0_r. repeat split.
  - destruct (IH (i0 + 1) (b - (e - b * r))%js k) as (row & N & I & Dd & T);
      [lia |].
    exists row. split; [exact N |].
    rewrite I, Dd, T. repeat split; [lia | f_equal; lia].
Qed.

Lemma scheduleFrom_first start months r e count i0 b row :
  nth_error (scheduleFrom start months r e count i0 b) 0 = Some row ->
  interestAmount row = (b * r)%js
  /\ principalAmount row = (e - interestAmount row)%js
  /\ principalBalance row = (b - principalAmount row)%js.
Proof.
  destruct count as [| c]; [discriminate |].
  cbn [scheduleFrom nth_error]. intros [= <-]. repeat split.
Qed.

Lemma scheduleFrom_next start months r e count i0 b k row next :
  nth_error (scheduleFrom start months r e count i0 b) k = Some row ->
  nth_error (scheduleFrom start months r e count i0 b) (S k) = Some next ->
  interestAmount next = (principalBalance row * r)%js
  /\ principalAmount next = (e - interestAmount next)%js
  /\ principalBalance next = (principalBalance row - principalAmount next)%js.
Proof.
  revert i0 b k. induction count as [| c IH]; intros i0 b k; [discriminate |].
  destruct k as [| k]; cbn [scheduleFrom nth_error].
  - intros [= <-] N. cbn [principalBalance].
    now apply scheduleFrom_first in N.
  - apply IH.
Qed.

(** With finite amounts each row repays [1 + r] times the principal of
    the row before it. *)
Lemma principal_grows start months (r e : Qc) count i0 (b : Qc) k row next :
  nth_error (scheduleFrom start months (Fin r) (Fin e) count i0 (Fin b)) k
  = Some row ->
  nth_error (scheduleFrom start months (Fin r) (Fin e) count i0 (Fin b)) (S k)
  = Some next ->
  principalAmount next = (principalAmount row * (1 + Fin r))%js.
Proof.
  revert i0 b k. induction count as [| c IH]; intros i0 b k; [discriminate |].
  destruct k as [| k]; cbn [scheduleFrom nth_error mul sub neg add].
  - intros [= <-] N. destruct c as [| c]; [discriminate |].
    cbn [scheduleFrom nth_error mul sub neg add] in N.
    injection N as <-. cbn. f_equal.
    change (Q2Qc (inject_Z 1)) with 1%Qc. ring.
  - apply IH.
Qed.


End Rows.

Section Pages.
Context {D : DateFns} {M : MathLib}.

Lemma scheduleFrom_laidOut start months r e (n : Z) b :
  laidOut start months e n (scheduleFrom start months r e (Z.to_nat n) 0 b).
Proof.
  split.
  - unfold len. rewrite DCBFacts.scheduleFrom_length. lia.
  - intros i I.
    destruct (scheduleFrom_nth start months r e (Z.to_nat n) 0 b (Z.to_nat i))
      as (row & N & Num & Due & Tot); [lia |].
    exists row. rewrite Z2Nat.id in Num, Due by lia.
    now repeat split.
Qed.

Lemma scheduleFrom_reducing start months r e count b :
  reducing b r e (scheduleFrom start months r e count 0 b).
Proof.
  split.
  - intros first. apply scheduleFrom_first.
  - intros k row next. apply scheduleFrom_next.
Qed.

(** X3.  On both pages the schedule has one row per instalment (none
    for a count of zero or less); row [i] carries the number [i + 1],
    falls due [i] instalment periods after the start date, and shows the
    computed instalment amount. *)
Theorem schedule_is_laid_out :
  (forall (f : FormState) (res : CalculationResults),
      handleCalculate f = Some res ->
      laidOut (instalmentStartDate f) (getMonthsToAdd (instalmentFreq f))
        (instalmentAmount res) (numInstalments f) (amortizationSchedule res))
  /\ (forall g : LoanCalculator.FormState,
         laidOut (LoanCalculator.instalmentStartDate g)
           (LoanCalculator.getMonthsToAdd (LoanCalculator.instalmentFreq g))
           (LoanCalculator.emi (LoanCalculator.handleCalculate g))
           (LoanCalculator.numInstalments g)
           (LoanCalculator.schedule (LoanCalculator.handleCalculate g))).
Proof.
  split.
  - intros f res H.
    destruct (DCBFacts.handleCalculate_fields f res H) as (Es & Ei & _).
    rewrite Es, Ei. apply scheduleFrom_laidOut.
  - intros g. destruct (ScheduleFacts.loan_stored g) as (_ & Es).
    rewrite Es. apply scheduleFrom_laidOut.
Qed.

(** X4.  On both pages the schedule is a reducing-balance schedule,
    whatever the numbers: the first row charges the period rate on the
    loan amount, every later row on the balance of the row before it;
    each row repays the instalment less its interest and carries the
    previous balance less that repayment. *)
Theorem schedule_is_reducing :
  (forall (f : FormState) (res : CalculationResults),
      handleCalculate f = Some res ->
      reducing (loanAmount f) (ratePerPeriod f) (instalmentAmount res)
        (amortizationSchedule res))
  /\ (forall g : LoanCalculator.FormState,
         reducing (LoanCalculator.loanAmount g) (LoanCalculator.ratePerPeriod g)
           (LoanCalculator.emi (LoanCalculator.handleCalculate g))
           (LoanCalculator.schedule (LoanCalculator.handleCalculate g))).
Proof.
  split.
  - intros f res H.
    destruct (DCBFacts.handleCalculate_fields f res H) as (Es & Ei & _).
    rewrite Es, Ei. apply scheduleFrom_reducing.
  - intros g. destruct (ScheduleFacts.loan_stored g) as (_ & Es).
    rewrite Es. apply scheduleFrom_reducing.
Qed.

(** X5.  When the loan amount, the period rate and the instalment are
    finite, the principal repaid grows from each row to the next by the
    factor [1 + r], on both pages. *)
Theorem principal_repaid_grows :
  (forall (f : FormState) (res : CalculationResults) (p r e : Qc),
      handleCalculate f = Some res ->
      loanAmount f = Fin p ->
      ratePerPeriod f = Fin r ->
      instalmentAmount res = Fin e ->
      growing (Fin r) (amortizationSchedule res))
  /\ (forall (g : LoanCalculator.FormState) (p r e : Qc),
         LoanCalculator.loanAmount g = Fin p ->
         LoanCalculator.ratePerPeriod g = Fin r ->
         LoanCalculator.emi (LoanCalculator.handleCalculate g) = Fin e ->
         growing (Fin r)
           (LoanCalculator.schedule (LoanCalculator.handleCalculate g))).
Proof.
  split.
  - intros f res p r e H P R E.
    destruct (DCBFacts.handleCalculate_fields f res H) as (Es & Ei & _).
    rewrite Es. unfold schedule. rewrite <- Ei, E, P, R.
    intros k row next. apply principal_grows.
  - intros g p r e P R E.
    destruct (ScheduleFacts.loan_stored g) as (_ & Es).
    rewrite Es, E, P, R. intros k row next. apply principal_grows.
Qed.


(** X7.  For at least one instalment the last date shown by the loan
    page is the due date of the last row of its schedule. *)
Theorem last_date_is_last_due_date (g : LoanCalculator.FormState) :
  1 <= LoanCalculator.numInstalments g ->
  exists last,
    nth_error (LoanCalculator.schedule (LoanCalculator.handleCalculate g))
      (Z.to_nat (LoanCalculator.numInstalments g - 1)) = Some last
    /\ dueDate last = LoanCalculator.lastDate (LoanCalculator.handleCalculate g).
Proof.
  intros N.
  destruct (ScheduleFacts.loan_stored g) as (_ & Es).
  destruct (scheduleFrom_laidOut (LoanCalculator.instalmentStartDate g)
              (LoanCalculator.getMonthsToAdd (LoanCalculator.instalmentFreq g))
              (LoanCalculator.ratePerPeriod g)
              (LoanCalculator.emi (LoanCalculator.handleCalculate g))
              (LoanCalculator.numInstalments g) (LoanCalculator.loanAmount g))
    as (_ & Rows).
  destruct (Rows (LoanCalculator.numInstalments g - 1))
    as (row & Nth & _ & Due & _); [lia |].
  exists row. rewrite Es. split; [exact Nth |]. rewrite Due. reflexivity.
Qed.

(** X8.  Given the same loan amount, rate, count, frequencies and start
    date, the loan page and the DCB page compute the same instalment
    amount and the same schedule. *)
Theorem pages_agree (f : FormState) (g : LoanCalculator.FormState) :
  LoanCalculator.loanAmount g = loanAmount f ->
  LoanCalculator.interestRate g = interestRate f ->
  LoanCalculator.numInstalments g = numInstalments f ->
  LoanCalculator.instalmentFreq g = instalmentFreq f ->
  LoanCalculator.interestAppFreq g = interestAppFreq f ->
  LoanCalculator.instalmentStartDate g = instalmentStartDate f ->
  forall res,
    handleCalculate f = Some res ->
    LoanCalculator.emi (LoanCalculator.handleCalculate g) = instalmentAmount res
    /\ LoanCalculator.schedule (LoanCalculator.handleCalculate g)
       = amortizationSchedule res.
Proof.
  intros L I N F A S res H.
  destruct (DCBFacts.handleCalculate_fields f res H) as (Es & Ei & _).
  destruct (ScheduleFacts.loan_stored g) as (Ee & Eg).
  assert (Months : LoanCalculator.getMonthsToAdd (LoanCalculator.instalmentFreq g)
                   = getMonthsToAdd (instalmentFreq f))
    by (rewrite F; apply RateFacts.months_table).
  assert (Rate : LoanCalculator.ratePerPeriod g = ratePerPeriod f).
  { unfold LoanCalculator.ratePerPeriod, ratePerPeriod.
    rewrite I, A, Months. reflexivity. }
  assert (E : LoanCalculator.emi (LoanCalculator.handleCalculate g)
              = instalment f).
  { rewrite Ee, Rate, L, N. reflexivity. }
  split; [congruence |].
  rewrite Eg, Es, E, Rate, L, N, S, Months. reflexivity.
Qed.

End Pages.

Import Scenarios.

Lemma schedule_is_laid_out_witness :
  exists res,
    handleCalculate fourPaid = Some res
    /\ laidOut (on 15 1 2024) 1 (instalmentAmount res) 12
         (amortizationSchedule res).
Proof.
  destruct (DCBFacts.handleCalculate_completes fourPaid) as (res & E);
    [vm_compute; discriminate |].
  exists res. split; [exact E |].
  exact (proj1 schedule_is_laid_out fourPaid res E).
Defined.

Lemma schedule_is_reducing_witness :
  exists res,
    handleCalculate fourPaid = Some res
    /\ reducing (ofZ 120000) (ratePerPeriod fourPaid) (instalmentAmount res)
         (amortizationSchedule res).
Proof.
  destruct (DCBFacts.handleCalculate_completes fourPaid) as (res & E);
    [vm_compute; discriminate |].
  exists res. split; [exact E |].
  exact (proj1 schedule_is_reducing fourPaid res E).
Defined.

Lemma principal_repaid_grows_witness :
  exists res,
    handleCalculate fourPaid = Some res
    /\ growing (Fin (Q2Qc (1 # 100))) (amortizationSchedule res).
Proof.
  destruct (DCBFacts.handleCalculate_completes fourPaid) as (res & E);
    [vm_compute; discriminate |].
  exists res. split; [exact E |].
  destruct (DCBFacts.handleCalculate_fields fourPaid res E) as (_ & Ei & _).
  assert (P : loanAmount fourPaid = Fin (Q2Qc 120000))
    by (apply eqb_eq; vm_compute; reflexivity).
  assert (R : ratePerPeriod fourPaid = Fin (Q2Qc (1 # 100)))
    by (apply eqb_eq; vm_compute; reflexivity).
  assert (I : instalment fourPaid
              = Fin (levelInstalment (Q2Qc 120000) (Q2Qc (1 # 100)) 12))
    by (apply eqb_eq; vm_compute; reflexivity).
  rewrite I in Ei.
  exact (proj1 principal_repaid_grows fourPaid res _ _ _ E P R Ei).
Defined.


Lemma last_date_is_last_due_date_witness :
  1 <= LoanCalculator.numInstalments plainLoan
  /\ exists last,
       nth_error (LoanCalculator.schedule (LoanCalculator.handleCalculate plainLoan))
         11 = Some last
       /\ dueDate last = LoanCalculator.lastDate (LoanCalculator.handleCalculate plainLoan).
Proof.
  assert (N : 1 <= LoanCalculator.numInstalments plainLoan)
    by (vm_compute; discriminate).
  split; [exact N |].
  exact (last_date_is_last_due_date plainLoan N).
Defined.

Lemma pages_agree_witness :
  exists res,
    handleCalculate fourPaid = Some res
    /\ LoanCalculator.emi (LoanCalculator.handleCalculate plainLoan)
       = instalmentAmount res
    /\ LoanCalculator.schedule (LoanCalculator.handleCalculate plainLoan)
       = amortizationSchedule res.
Proof.
  destruct (DCBFacts.handleCalculate_completes fourPaid) as (res & E);
    [vm_compute; discriminate |].
  exists res. split; [exact E |].
  exact (pages_agree fourPaid plainLoan eq_refl eq_refl eq_refl eq_refl
           eq_refl eq_refl res E).
Defined.
End RowFacts.

(** ** Paid, due and overdue rows *)

Module PaidFacts.
Import Reference Shapes DCBCalculator.

Section Arrays.
Context {A : Type}.

Lemma slice_length (l : list A) (a b : Z) :
  0 <= a -> 0 <= b ->
  len (slice l a b) = Z.max 0 (Z.min b (len l) - Z.min a (len l)).
Proof.
  intros Ha Hb. unfold slice, len.
  assert (Ea : (a <? 0) = false) by (apply Z.ltb_ge; lia).
  assert (Eb : (b <? 0) = false) by (apply Z.ltb_ge; lia).
  rewrite Ea, Eb. rewrite length_firstn, length_skipn. lia.
Qed.


End Arrays.

Section Handler.
Context {D : DateFns} {M : MathLib}.

(** X9.  The handler fails exactly when the paid count is negative,
    which only a negative entry with the instalments option produces:
    reading the due date of the row at a negative index raises.  With
    the other two options the paid count is derived and the handler
    always completes. *)
Theorem raises_only_on_negative_paid_count (f : FormState) :
  (handleCalculate f = None <-> paidCount f < 0)
  /\ (inputOption f = Instalments ->
      paidCount f = match instalmentsPaid f with Some k => k | None => 0 end)
  /\ (inputOption f <> Instalments -> handleCalculate f <> None).
Proof.
  split; [| split].
  - split.
    + intros H. destruct (Z.lt_ge_cases (paidCount f) 0) as [K | K]; [exact K |].
      destruct (DCBFacts.handleCalculate_completes f K) as (res & E).
      congruence.
    + apply DCBFacts.handleCalculate_raises.
  - intros Mode. unfold paidCount, payments, readPayments. now rewrite Mode.
  - intros Mode H.
    pose proof (DCBFacts.paidCount_derived f Mode) as K.
    destruct (DCBFacts.handleCalculate_completes f K) as (res & E).
    congruence.
Qed.


(** X11.  In a completed calculation the paid rows are the first
    [min(k, n)] rows of the schedule, the overdue amounts are summed
    over exactly as many rows as the reported number of overdue
    instalments, and that number lies between 0 and the number of rows
    due, which is at most the length of the schedule. *)
Theorem rows_are_counted (f : FormState) (res : CalculationResults) :
  handleCalculate f = Some res ->
  let rows := amortizationSchedule res in
  let k := paidCount f in
  let due :=
    len (filter (fun row => date_le (dueDate row) (upToDate f)) rows) in
  len (slice rows 0 k) = Z.min k (len rows)
  /\ len (slice rows k due) = installmentsToBePaid res
  /\ 0 <= installmentsToBePaid res <= due
  /\ due <= len rows.
Proof.
  intros H rows k due.
  pose proof (DCBFacts.completed_paidCount f res H) as K.
  destruct (DCBFacts.handleCalculate_fields f res H)
    as (Es & _ & _ & _ & _ & _ & _ & _ & En & _).
  assert (Due : due = instalmentsDue f)
    by (subst due rows; rewrite Es; reflexivity).
  assert (L : due <= len rows).
  { subst due. unfold len. pose proof (filter_length_le
      (fun row => date_le (dueDate row) (upToDate f)) rows). lia. }
  assert (D0 : 0 <= due) by (subst due; unfold len; lia).
  fold k in K. rewrite En, <- Due. fold k.
  rewrite !slice_length by lia.
  repeat split; lia.
Qed.


Lemma scheduleFrom_firstn start months r e count i0 b (k : nat) :
  (k <= count)%nat ->
  firstn k (scheduleFrom start months r e count i0 b)
  = scheduleFrom start months r e k i0 b.
Proof.
  revert count i0 b. induction k as [| k IH]; intros count i0 b K.
  - reflexivity.
  - destruct count as [| c]; [lia |].
    cbn [scheduleFrom firstn]. f_equal. apply IH. lia.
Qed.

(** X12.  With the instalments or the collection option and finite
    loan amount, period rate and instalment, the total principal
    balance reported after [k] paid instalments ([1 <= k <= n]) is the
    balance that row [k] of the schedule shows; after none it is the
    loan amount. *)
Theorem principal_balance_after_paid_rows
  (f : FormState) (res : CalculationResults) (p r e : Qc) :
  handleCalculate f = Some res ->
  inputOption f <> Outstanding ->
  loanAmount f = Fin p ->
  ratePerPeriod f = Fin r ->
  instalmentAmount res = Fin e ->
  (paidCount f = 0 -> totalPrincipalBalance res = loanAmount f)
  /\ (1 <= paidCount f <= numInstalments f ->
      exists row,
        nth_error (amortizationSchedule res) (Z.to_nat (paidCount f - 1))
        = Some row
        /\ totalPrincipalBalance res = principalBalance row).
Proof.
  intros H Mode P R E.
  pose proof (DCBFacts.completed_paidCount f res H) as K.
  destruct (DCBFacts.handleCalculate_fields f res H)
    as (Es & Ei & _ & _ & _ & _ & _ & _ & _ & _ & _ & Etp & _).
  assert (T : totalPrincipalBalance res
              = (loanAmount f - sumOf principalAmount (paidInstalments f))%js)
    by (destruct (inputOption f); [exact Etp | now elim Mode | exact Etp]).
  rewrite (DCBFacts.paidInstalments_prefix f K) in T.
  split.
  - intros K0. rewrite T, K0. cbn [Z.to_nat firstn].
    unfold sumOf. cbn [fold_left]. apply sub_0_r.
  - intros [K1 Kn].
    assert (S : schedule f
                = scheduleFrom (instalmentStartDate f)
                    (getMonthsToAdd (instalmentFreq f)) (Fin r) (Fin e)
                    (Z.to_nat (numInstalments f)) 0 (Fin p))
      by (unfold schedule; now rewrite <- Ei, E, P, R).
    rewrite S, scheduleFrom_firstn, ScheduleFacts.sum_principal in T by lia.
    assert (Ek : Z.to_nat (paidCount f)
                 = Datatypes.S (Z.to_nat (paidCount f - 1))) by lia.
    destruct (ScheduleFacts.last_balance (instalmentStartDate f)
                (getMonthsToAdd (instalmentFreq f)) r e
                (Z.to_nat (paidCount f - 1)) 0 p) as (row & Nth & B).
    rewrite <- Ek in Nth, B.
    rewrite <- (scheduleFrom_firstn _ _ _ _ (Z.to_nat (numInstalments f)))
      in Nth by lia.
    rewrite nth_error_firstn in Nth.
    assert (Lt : (Z.to_nat (paidCount f - 1) <? Z.to_nat (paidCount f))%nat
                 = true) by (apply Nat.ltb_lt; lia).
    rewrite Lt in Nth.
    exists row. rewrite Es, S. split; [exact Nth |].
    rewrite T, B, P. cbn [sub neg add]. f_equal. unfold Qcminus. ring.
Qed.

Lemma filter_prefix {A : Type} (p : A -> bool) (l : list A) (k a : nat) :
  map p l = map (fun i => Nat.ltb i k) (seq a (List.length l)) ->
  filter p l = firstn (k - a) l.
Proof.
  revert a. induction l as [| x t IH]; intros a E.
  - now rewrite firstn_nil.
  - cbn [List.length seq map] in E. injection E as Px E.
    cbn [filter]. rewrite Px. specialize (IH (S a) E).
    destruct (Nat.ltb a k) eqn:Lt.
    + apply Nat.ltb_lt in Lt.
      replace (k - a)%nat with (S (k - S a)) by lia.
      cbn [firstn]. now rewrite IH.
    + apply Nat.ltb_ge in Lt.
      replace (k - a)%nat with O by lia.
      rewrite IH. replace (k - S a)%nat with O by lia. reflexivity.
Qed.

(** X13.  When the rows due by the as-of date are exactly the rows at
    the positions below the paid count and the demand is finite, the
    collection equals the demand, the balance is zero and no instalment
    is overdue. *)
Theorem nothing_due_is_unpaid (f : FormState) (res : CalculationResults) :
  handleCalculate f = Some res ->
  map (fun row => date_le (dueDate row) (upToDate f)) (amortizationSchedule res)
  = map (fun i => Nat.ltb i (Z.to_nat (paidCount f)))
      (seq 0 (List.length (amortizationSchedule res))) ->
  isFinite (demand res) = true ->
  collection res = demand res
  /\ balance res = ofZ 0
  /\ installmentsToBePaid res = 0.
Proof.
  intros H Positions Finite.
  pose proof (DCBFacts.completed_paidCount f res H) as K.
  destruct (DCBFacts.handleCalculate_fields f res H)
    as (Es & _ & _ & Epd & Eid & Ed & Ec & Eb & En & _).
  apply filter_prefix in Positions. rewrite Nat.sub_0_r in Positions.
  rewrite Es in Positions. fold (dueRows f) in Positions.
  rewrite <- (DCBFacts.paidInstalments_prefix f K) in Positions.
  assert (C : collection res = demand res)
    by (rewrite Ec, Ed, Epd, Eid, Positions; reflexivity).
  split; [exact C |]. split.
  - rewrite Eb, C. destruct (demand res) as [d | | |]; try discriminate.
    cbn. unfold ofZ. f_equal. change (Q2Qc (inject_Z 0)) with 0%Qc. ring.
  - rewrite En. unfold instalmentsDue. rewrite Positions.
    unfold paidInstalments. rewrite slice_length by lia.
    unfold len. lia.
Qed.

End Handler.

Import Scenarios MoreScenarios.

Lemma raises_only_on_negative_paid_count_witness :
  handleCalculate minusOnePaid = None /\ handleCalculate fourPaid <> None.
Proof.
  split.
  - apply (proj1 (raises_only_on_negative_paid_count minusOnePaid)).
    vm_compute. reflexivity.
  - intros H.
    apply (proj1 (raises_only_on_negative_paid_count fourPaid)) in H.
    vm_compute in H. discriminate.
Defined.

Lemma rows_are_counted_witness :
  exists res,
    handleCalculate fourPaid = Some res
    /\ len (slice (amortizationSchedule res) 4 6) = installmentsToBePaid res.
Proof.
  destruct (DCBFacts.handleCalculate_completes fourPaid) as (res & E);
    [vm_compute; discriminate |].
  exists res. split; [exact E |].
  destruct (rows_are_counted fourPaid res E) as (_ & C & _).
  destruct (DCBFacts.handleCalculate_fields fourPaid res E) as (Es & _).
  rewrite Es in C.
  replace (len (filter (fun row => date_le (dueDate row) (upToDate fourPaid))
                  (schedule fourPaid))) with 6 in C
    by (vm_compute; reflexivity).
  replace (paidCount fourPaid) with 4 in C by (vm_compute; reflexivity).
  rewrite Es. exact C.
Defined.

Lemma principal_balance_after_paid_rows_witness :
  exists res row,
    handleCalculate fourPaid = Some res
    /\ nth_error (amortizationSchedule res) 3 = Some row
    /\ totalPrincipalBalance res = principalBalance row.
Proof.
  destruct (DCBFacts.handleCalculate_completes fourPaid) as (res & E);
    [vm_compute; discriminate |].
  destruct (DCBFacts.handleCalculate_fields fourPaid res E) as (_ & Ei & _).
  assert (P : loanAmount fourPaid = Fin (Q2Qc 120000))
    by (apply eqb_eq; vm_compute; reflexivity).
  assert (R : ratePerPeriod fourPaid = Fin (Q2Qc (1 # 100)))
    by (apply eqb_eq; vm_compute; reflexivity).
  assert (I : instalment fourPaid
              = Fin (levelInstalment (Q2Qc 120000) (Q2Qc (1 # 100)) 12))
    by (apply eqb_eq; vm_compute; reflexivity).
  rewrite I in Ei.
  assert (Mode : inputOption fourPaid <> Outstanding) by discriminate.
  destruct (principal_balance_after_paid_rows fourPaid res _ _ _ E Mode P R Ei)
    as (_ & After).
  destruct After as (row & Nth & T); [vm_compute; split; discriminate |].
  exists res, row. split; [exact E |]. split; [| exact T].
  replace (paidCount fourPaid) with 4 in Nth by (vm_compute; reflexivity).
  exact Nth.
Defined.

Lemma nothing_due_is_unpaid_witness :
  exists res,
    handleCalculate sixPaid = Some res
    /\ balance res = ofZ 0
    /\ installmentsToBePaid res = 0.
Proof.
  destruct (DCBFacts.handleCalculate_completes sixPaid) as (res & E);
    [vm_compute; discriminate |].
  exists res. split; [exact E |].
  destruct (DCBFacts.handleCalculate_fields sixPaid res E)
    as (Es & _ & _ & Epd & Eid & Ed & _).
  apply (nothing_due_is_unpaid sixPaid res E).
  - rewrite Es. vm_compute. reflexivity.
  - rewrite Ed, Epd, Eid. vm_compute. reflexivity.
Defined.

End PaidFacts.

(** ** The deposit table and the simple-interest branch *)

Module TableFacts.
Import Reference Shapes Growth Deposit.

(** X14.  Only the text "no-compound" selects simple interest: it alone
    gives 0 compounding periods a year; every other text gives a
    positive number, and a text that is none of the six known ones
    counts as monthly compounding. *)
Theorem compounding_periods (comp : string) :
  (compoundsPerYear comp = 0 <-> comp = "no-compound"%string)
  /\ 0 <= compoundsPerYear comp
  /\ (~ In comp ["daily"; "monthly"; "quarterly"; "half-yearly"; "yearly";
                 "no-compound"]%string ->
      compoundsPerYear comp = 12).
Proof.
  unfold compoundsPerYear.
  destruct (String.eqb comp "daily") eqn:E1;
    [apply String.eqb_eq in E1; subst; cbn; repeat split;
     try discriminate; try lia; intros N; elim N; auto |].
  destruct (String.eqb comp "monthly") eqn:E2;
    [apply String.eqb_eq in E2; subst; cbn; repeat split;
     try discriminate; try lia; intros N; elim N; auto |].
  destruct (String.eqb comp "quarterly") eqn:E3;
    [apply String.eqb_eq in E3; subst; cbn; repeat split;
     try discriminate; try lia; intros N; elim N; auto |].
  destruct (String.eqb comp "half-yearly") eqn:E4;
    [apply String.eqb_eq in E4; subst; cbn; repeat split;
     try discriminate; try lia; intros N; elim N; auto 6 |].
  destruct (String.eqb comp "yearly") eqn:E5;
    [apply String.eqb_eq in E5; subst; cbn; repeat split;
     try discriminate; try lia; intros N; elim N; auto 7 |].
  destruct (String.eqb comp "no-compound") eqn:E6.
  - apply String.eqb_eq in E6. subst. cbn. repeat split; try lia.
    intros N. elim N. auto 8.
  - apply String.eqb_neq in E6. repeat split; try lia; try discriminate.
    intros ->. now elim E6.
Qed.

Section Loops.
Variables D rate : number.

Lemma payoutLoop_months count m b c (i : nat) :
  (i < count)%nat ->
  exists row,
    nth_error (rows (payoutLoop D rate count m b c)) i = Some row
    /\ month row = m + Z.of_nat i
    /\ contribution row = D.
Proof.
  revert m b c i. induction count as [| k IH]; intros m b c i I; [lia |].
  destruct i as [| i]; cbn [payoutLoop rows nth_error].
  - eexists. split; [reflexivity |]. cbn. split; [lia | reflexivity].
  - destruct (IH (m + 1) (b + D)%js (c + (b + D) * 1 * rate / (1200 + rate))%js i)
      as (row & N & Mo & Co); [lia |].
    exists row. split; [exact N |]. split; [lia | exact Co].
Qed.

Lemma simpleLoop_months count m b c (i : nat) :
  (i < count)%nat ->
  exists row,
    nth_error (rows (simpleLoop D rate count m b c)) i = Some row
    /\ month row = m + Z.of_nat i
    /\ contribution row = D.
Proof.
  revert m b c i. induction count as [| k IH]; intros m b c i I; [lia |].
  destruct i as [| i]; cbn [simpleLoop rows nth_error].
  - eexists. split; [reflexivity |]. cbn. split; [lia | reflexivity].
  - destruct (IH (m + 1) (b + D)%js (c + (b + D) * rate)%js i)
      as (row & N & Mo & Co); [lia |].
    exists row. split; [exact N |]. split; [lia | exact Co].
Qed.

Lemma compoundLoop_months count m b c (i : nat) :
  (i < count)%nat ->
  exists row,
    nth_error (rows (compoundLoop D rate count m b c)) i = Some row
    /\ month row = m + Z.of_nat i
    /\ contribution row = D.
Proof.
  revert m b c i. induction count as [| k IH]; intros m b c i I; [lia |].
  destruct i as [| i]; cbn [compoundLoop rows nth_error].
  - eexists. split; [reflexivity |]. cbn. split; [lia | reflexivity].
  - destruct (IH (m + 1) (b + D + (b + D) * rate)%js (c + (b + D) * rate)%js i)
      as (row & N & Mo & Co); [lia |].
    exists row. split; [exact N |]. split; [lia | exact Co].
Qed.

Lemma simpleLoop_length count m b c :
  List.length (rows (simpleLoop D rate count m b c)) = count.
Proof.
  revert m b c. induction count as [| k IH]; intros m b c; simpl;
    [reflexivity | now rewrite IH].
Qed.

Lemma compoundLoop_length count m b c :
  List.length (rows (compoundLoop D rate count m b c)) = count.
Proof.
  revert m b c. induction count as [| k IH]; intros m b c; simpl;
    [reflexivity | now rewrite IH].
Qed.

End Loops.

Section Handler.
Context {M : MathLib}.

Lemma monthByMonth_from (D : number) (n : Z) (table : list TableRow) :
  0 <= n ->
  List.length table = Z.to_nat n ->
  (forall i : nat,
      (i < Z.to_nat n)%nat ->
      exists row,
        nth_error table i = Some row
        /\ month row = 1 + Z.of_nat i
        /\ contribution row = D) ->
  monthByMonth D n table.
Proof.
  intros N L Rows. split.
  - unfold len. lia.
  - intros i I. destruct (Rows (Z.to_nat i)) as (row & Nth & Mo & Co); [lia |].
    exists row. split; [exact Nth |]. split; [lia | exact Co].
Qed.

(** X15.  Whatever the payout method and the compounding, the table
    has one row per month of the term (none when the period is empty,
    zero or negative), numbered from 1, each showing the monthly deposit
    as read ([parseFloat(..) || 0]). *)
Theorem table_is_month_by_month (s : State) :
  monthByMonth (orZero (monthly s)) (termMonths s) (snd (handleCalc s))
  /\ 0 <= termMonths s
  /\ (months s = None -> snd (handleCalc s) = []).
Proof.
  pose proof (DepositFacts.termMonths_nonneg s) as N.
  assert (Table : monthByMonth (orZero (monthly s)) (termMonths s)
                    (snd (handleCalc s))).
  { unfold handleCalc. destruct (paymentMethod s).
    - cbn [snd]. apply monthByMonth_from; [exact N | |].
      + apply DepositFacts.payoutLoop_length.
      + intros i. apply payoutLoop_months.
    - destruct (compoundsPerYear (comp s) =? 0); cbn [snd];
        (apply monthByMonth_from; [exact N | |]).
      + apply simpleLoop_length.
      + intros i. apply simpleLoop_months.
      + apply compoundLoop_length.
      + intros i. apply compoundLoop_months. }
  split; [exact Table |]. split; [exact N |].
  intros Empty. destruct Table as (L & _).
  assert (Z0 : termMonths s = 0) by (unfold termMonths; now rewrite Empty).
  rewrite Z0 in L. unfold len in L.
  destruct (snd (handleCalc s)); [reflexivity | discriminate].
Qed.

End Handler.

Section ExactArithmetic.
Local Open Scope Qc_scope.

Lemma triangle_S (k : nat) : triangle (S k) = triangle k + natQc (S k).
Proof.
  unfold triangle. rewrite !DepositFacts.natQc_S.
  replace (Q2Qc 2) with (1 + 1) by (apply Qc_is_canon; reflexivity).
  field. discriminate.
Qed.

Lemma triangle_0 : triangle 0 = 0.
Proof. apply Qc_is_canon. reflexivity. Qed.

(** The no-compound loop with finite amounts: the balance collects the
    deposits, the interest is the monthly rate on every month's
    balance. *)
Lemma simpleLoop_closed (d j : Qc) count m (p c : Qc) :
  loopBalance (simpleLoop (Fin d) (Fin j) count m (Fin p) (Fin c))
  = Fin (p + natQc count * d)
  /\ cumInterest (simpleLoop (Fin d) (Fin j) count m (Fin p) (Fin c))
     = Fin (c + j * (natQc count * p + d * triangle count)).
Proof.
  revert m p c. induction count as [| k IH]; intros m p c.
  - cbn. rewrite DepositFacts.natQc_0, triangle_0. split; f_equal; ring.
  - cbn [simpleLoop loopBalance cumInterest add mul].
    destruct (IH (m + 1)%Z (p + d) (c + (p + d) * j)) as (B & C).
    rewrite B, C. rewrite triangle_S, !DepositFacts.natQc_S.
    split; f_equal; ring.
Qed.

(** The compounding loop with finite amounts. *)
Lemma compoundLoop_closed (d j : Qc) count m (p c : Qc) :
  loopBalance (compoundLoop (Fin d) (Fin j) count m (Fin p) (Fin c))
  = Fin (p * (1 + j) ^ count + d * annuityDue (1 + j) count)
  /\ cumInterest (compoundLoop (Fin d) (Fin j) count m (Fin p) (Fin c))
     = Fin (c + (p * (1 + j) ^ count + d * annuityDue (1 + j) count
                 - p - natQc count * d)).
Proof.
  revert m p c. induction count as [| k IH]; intros m p c.
  - cbn. rewrite DepositFacts.natQc_0. split; f_equal; ring.
  - cbn [compoundLoop loopBalance cumInterest add mul].
    destruct (IH (m + 1)%Z (p + d + (p + d) * j) (c + (p + d) * j)) as (B & C).
    rewrite B, C. rewrite !DepositFacts.natQc_S. cbn [Qcpower annuityDue].
    split; f_equal; ring.
Qed.

(** The last row of the compounding table shows the final state of the
    loop. *)
Lemma compoundLoop_last (D j : number) k m b c :
  exists row,
    nth_error (rows (compoundLoop D j (S k) m b c)) k = Some row
    /\ balance row = loopBalance (compoundLoop D j (S k) m b c)
    /\ interest row = cumInterest (compoundLoop D j (S k) m b c).
Proof.
  revert m b c. induction k as [| k IH]; intros m b c.
  - eexists. split; [reflexivity |]. split; reflexivity.
  - destruct (IH (m + 1)%Z (b + D + (b + D) * j)%js (c + (b + D) * j)%js)
      as (row & N & B & C).
    exists row. split; [exact N |]. split; [exact B | exact C].
Qed.

(** [q + ... + q^k] in closed form, cleared of its division. *)
Lemma annuityDue_closed (j : Qc) (k : nat) :
  j * annuityDue (1 + j) k = (1 + j) * ((1 + j) ^ k - 1).
Proof.
  induction k as [| k IH]; cbn [annuityDue Qcpower].
  - ring.
  - transitivity (j * ((1 + j) * (1 + j) ^ k) + j * annuityDue (1 + j) k);
      [ring |].
    rewrite IH. ring.
Qed.

Lemma annuityDue_flat (k : nat) : annuityDue (1 + 0) k = natQc k.
Proof.
  replace (1 + 0) with 1 by ring.
  induction k as [| k IH]; cbn [annuityDue].
  - reflexivity.
  - rewrite IH, DepositFacts.natQc_S, Qcpower_1. ring.
Qed.

End ExactArithmetic.

Section Maturity.
Context {M : MathLib}.

Lemma natQc_termMonths (s : State) :
  Q2Qc (inject_Z (termMonths s)) = natQc (Z.to_nat (termMonths s)).
Proof. apply DepositFacts.natQc_of_Z, DepositFacts.termMonths_nonneg. Qed.

(** X16.  At maturity without compounding and with finite amounts, the
    interest is the monthly rate [rate / 100 / 12] on the balance of
    every month: on [n] times the principal plus [1 + 2 + ... + n] times
    the monthly deposit; the maturity value is the total paid in plus
    that interest.  Without a monthly deposit this is the simple
    interest [principal * rate/100 * n / 12]. *)
Theorem simple_interest_at_maturity (s : State) (p d rho : Qc) :
  paymentMethod s = maturity ->
  comp s = "no-compound"%string ->
  orZero (principal s) = Fin p ->
  orZero (monthly s) = Fin d ->
  orZero (rate s) = Fin rho ->
  let res := fst (handleCalc s) in
  let n := Z.to_nat (termMonths s) in
  let j := (rho / Q2Qc 100 / Q2Qc 12)%Qc in
  interestAmount res = Fin (j * (natQc n * p + d * triangle n))%Qc
  /\ totalPrincipal res = Fin (p + natQc n * d)%Qc
  /\ maturityValue res = (totalPrincipal res + interestAmount res)%js
  /\ (d = Q2Qc 0 ->
      interestAmount res = Fin (p * (rho / Q2Qc 100) * natQc n / Q2Qc 12)%Qc).
Proof.
  intros Mode Comp P D R res n j.
  assert (J : (orZero (rate s) / 100 / 12)%js = Fin j).
  { rewrite R. unfold ofZ. rewrite !div_Fin; [reflexivity | |];
      apply RateFacts.Q2Qc_inject_nonzero; discriminate. }
  assert (Res : res
                = mkResult (Fin p + Fin d * termMonths s)%js
                    (cumInterest (simpleLoop (Fin d) (Fin j) n 1 (Fin p) 0))
                    (loopBalance (simpleLoop (Fin d) (Fin j) n 1 (Fin p) 0)
                     + cumInterest (simpleLoop (Fin d) (Fin j) n 1 (Fin p) 0))%js
                    (apy res)).
  { subst res. unfold handleCalc. rewrite Mode, Comp, P, D, J. reflexivity. }
  destruct (simpleLoop_closed d j n 1 p (Q2Qc 0)) as (B & C).
  change (Fin (Q2Qc 0)) with (ofZ 0) in B, C.
  assert (I : interestAmount res = Fin (j * (natQc n * p + d * triangle n))%Qc).
  { rewrite Res. cbn [interestAmount]. rewrite C. f_equal. ring. }
  assert (T : totalPrincipal res = Fin (p + natQc n * d)%Qc).
  { rewrite Res. cbn [totalPrincipal mul add ofZ]. f_equal.
    rewrite natQc_termMonths. fold n. ring. }
  split; [exact I |]. split; [exact T |]. split.
  - rewrite T, I. rewrite Res. cbn [maturityValue]. rewrite B, C.
    cbn [add]. f_equal. ring.
  - intros ->. rewrite I. f_equal. subst j.
    replace (Q2Qc 0 * triangle n)%Qc with (Q2Qc 0) by ring.
    field. split; discriminate.
Qed.

(** X17.  At maturity with compounding, for finite amounts, a monthly
    deposit that is not negative, a finite monthly rate and a term of at
    least one month, the last row of the table shows the maturity value
    as its balance and the maturity value less the total paid in as its
    interest. *)
Theorem table_ends_at_maturity_value (s : State) (p d jq : Qc) :
  paymentMethod s = maturity ->
  0 < compoundsPerYear (comp s) ->
  orZero (principal s) = Fin p ->
  orZero (monthly s) = Fin d ->
  (0 <= d)%Qc ->
  monthlyRate s = Fin jq ->
  1 <= termMonths s ->
  let res := fst (handleCalc s) in
  exists last,
    nth_error (snd (handleCalc s)) (Z.to_nat (termMonths s - 1)) = Some last
    /\ balance last = maturityValue res
    /\ interest last = (maturityValue res - totalPrincipal res)%js.
Proof.
  intros Mode Comp P D D0 J N res.
  set (n := Z.to_nat (termMonths s)).
  set (q := (1 + jq)%Qc).
  assert (Z : (compoundsPerYear (comp s) =? 0) = false)
    by (apply Z.eqb_neq; lia).
  assert (Pow : Math_pow (1 + Fin jq) (termMonths s) = Fin (q ^ n)%Qc)
    by (rewrite ScheduleFacts.one_plus; apply ScheduleFacts.Math_pow_nat; lia).
  assert (Mv : maturityValue res = Fin (p * q ^ n + d * annuityDue q n)%Qc).
  { subst res. unfold handleCalc. rewrite Mode, Z, P, D, J, Pow.
    cbn [fst maturityValue].
    destruct (Qc_eq_dec jq (Q2Qc 0)) as [Jz | Jn];
      destruct (Qcle_lt_or_eq _ _ D0) as [Dp | Dz].
    - (* no growth *)
      subst jq. assert (S0 : strict_ne (Fin (Q2Qc 0)) 0 = false) by reflexivity.
      rewrite S0, andb_false_r. cbn [mul add ofZ]. f_equal.
      rewrite natQc_termMonths. fold n. subst q.
      now rewrite annuityDue_flat.
    - subst d. assert (G : (Fin (Q2Qc 0) > 0)%js = false) by reflexivity.
      rewrite G. cbn [andb mul add ofZ]. apply (f_equal Fin). ring.
    - assert (G : (Fin d > 0)%js = true).
      { assert (Cmp : (Q2Qc 0 ?= d)%Qc = Lt) by (now apply Qclt_alt).
        unfold gt, lt, ofZ. change (Q2Qc (inject_Z 0)) with (Q2Qc 0).
        now rewrite Cmp. }
      assert (S1 : strict_ne (Fin jq) 0 = true).
      { unfold strict_ne, ofZ. change (Q2Qc (inject_Z 0)) with (Q2Qc 0).
        destruct (Qc_eq_bool jq (Q2Qc 0)) eqn:E; [| reflexivity].
        apply Qc_eq_bool_correct in E. contradiction. }
      rewrite G, S1. cbn [andb]. rewrite ScheduleFacts.one_plus.
      cbn [sub neg add ofZ]. rewrite div_Fin by exact Jn.
      cbn [mul add]. f_equal. fold q.
      change (Q2Qc (inject_Z 1)) with 1%Qc.
      assert (A : annuityDue q n = ((q ^ n - 1) / jq * q)%Qc).
      { transitivity (jq * annuityDue q n / jq)%Qc; [field; exact Jn |].
        subst q. rewrite annuityDue_closed. field. exact Jn. }
      rewrite A. unfold Qcminus. ring.
    - subst d. assert (G : (Fin (Q2Qc 0) > 0)%js = false) by reflexivity.
      rewrite G. cbn [andb mul add ofZ]. apply (f_equal Fin). ring. }
  assert (Tp : totalPrincipal res = Fin (p + natQc n * d)%Qc).
  { subst res. unfold handleCalc. rewrite Mode, Z, P, D.
    cbn [fst totalPrincipal mul add ofZ]. f_equal.
    rewrite natQc_termMonths. fold n. ring. }
  assert (Table : snd (handleCalc s)
                  = rows (compoundLoop (Fin d) (Fin jq) n 1 (Fin p) 0)).
  { unfold handleCalc. rewrite Mode, Z, P, D, J. reflexivity. }
  assert (En : n = S (Z.to_nat (termMonths s - 1))) by (subst n; lia).
  destruct (compoundLoop_last (Fin d) (Fin jq) (Z.to_nat (termMonths s - 1))
              1 (Fin p) 0) as (row & Nth & B & C).
  rewrite <- En in Nth, B, C.
  destruct (compoundLoop_closed d jq n 1 p (Q2Qc 0)) as (Bc & Cc).
  change (Fin (Q2Qc 0)) with (ofZ 0) in Bc, Cc. fold q in Bc, Cc.
  exists row. rewrite Table. split; [exact Nth |].
  rewrite B, C, Bc, Cc, Mv, Tp. split; [reflexivity |].
  cbn [sub neg add]. f_equal. unfold Qcminus. ring.
Qed.

End Maturity.

Import Scenarios MoreScenarios.

Lemma simple_interest_at_maturity_witness :
  paymentMethod simpleDeposit = maturity
  /\ comp simpleDeposit = "no-compound"%string
  /\ interestAmount (fst (handleCalc simpleDeposit)) = ofZ 12000.
Proof.
  split; [reflexivity |]. split; [reflexivity |].
  assert (P : orZero (principal simpleDeposit) = Fin (Q2Qc 100000))
    by (apply eqb_eq; vm_compute; reflexivity).
  assert (D : orZero (monthly simpleDeposit) = Fin (Q2Qc 0))
    by (apply eqb_eq; vm_compute; reflexivity).
  assert (R : orZero (rate simpleDeposit) = Fin (Q2Qc 12))
    by (apply eqb_eq; vm_compute; reflexivity).
  destruct (simple_interest_at_maturity simpleDeposit _ _ _
              eq_refl eq_refl P D R) as (_ & _ & _ & Simple).
  rewrite (Simple eq_refl).
  apply eqb_eq. vm_compute. reflexivity.
Defined.

Lemma table_ends_at_maturity_value_witness :
  exists last,
    nth_error (snd (handleCalc saving)) 11 = Some last
    /\ balance last = maturityValue (fst (handleCalc saving)).
Proof.
  assert (P : orZero (principal saving) = Fin (Q2Qc 100000))
    by (apply eqb_eq; vm_compute; reflexivity).
  assert (D : orZero (monthly saving) = Fin (Q2Qc 1000))
    by (apply eqb_eq; vm_compute; reflexivity).
  assert (D0 : (0 <= Q2Qc 1000)%Qc) by discriminate.
  assert (J : monthlyRate saving = Fin (Q2Qc (1 # 100)))
    by (apply eqb_eq; vm_compute; reflexivity).
  assert (N : 1 <= termMonths saving) by (vm_compute; discriminate).
  assert (C : 0 < compoundsPerYear (comp saving)) by reflexivity.
  destruct (table_ends_at_maturity_value saving _ _ _ eq_refl C P D D0 J N)
    as (last & Nth & B & _).
  exists last. split; [exact Nth | exact B].
Defined.

End TableFacts.

(** ** The date text fields *)

Module DateFieldFacts.
Import DateField.

Lemma In_firstn {A : Type} (n : nat) (l : list A) (x : A) :
  In x (firstn n l) -> In x l.
Proof.
  intros I. rewrite <- (firstn_skipn n l). apply in_or_app. now left.
Qed.

Lemma kept_digits (value : text) :
  let digits := slice (filter isDigit value) 0 8 in
  digits = firstn 8 (filter isDigit value)
  /\ (List.length digits <= 8)%nat
  /\ Forall (fun c => isDigit c = true) digits.
Proof.
  intros digits. subst digits. rewrite slice_prefix by lia.
  change (Z.to_nat 8) with 8%nat.
  split; [reflexivity |]. split; [apply firstn_le_length |].
  apply Forall_forall. intros c C. apply In_firstn in C.
  now apply filter_In in C.
Qed.

Ltac digit_cases d L F :=
  do 9 (try (destruct d as [| ?c d];
             [| apply Forall_cons_iff in F; destruct F as [? F]]));
  [.. | cbn in L; lia].

(** What the mask builds from the kept digits. *)
Lemma built_from_digits (d : text) :
  (List.length d <= 8)%nat ->
  Forall (fun c => isDigit c = true) d ->
  let out :=
    if len d >? 4
    then (if len d >? 2 then slice d 0 2 ++ slash :: slice d 2 4
          else slice d 0 2) ++ slash :: slice d 4 8
    else (if len d >? 2 then slice d 0 2 ++ slash :: slice d 2 4
          else slice d 0 2) in
  filter isDigit out = d
  /\ (List.length out <= 10)%nat
  /\ Forall shown out
  /\ (List.length d = 8%nat -> List.length out = 10%nat).
Proof.
  intros L F out. subst out.
  digit_cases d L F.
  all: unfold slice, len; cbv -[isDigit slash filter shown]; cbn [filter];
    repeat match goal with
      | H : isDigit ?c = true |- context [isDigit ?c] => rewrite H
      end;
    change (isDigit slash) with false; cbv iota.
  all: repeat split; try reflexivity; try (cbn; lia);
    try (intros E; cbn in E; discriminate).
  all: repeat (apply Forall_cons; [first [now left | now right] |]);
    try apply Forall_nil.
Qed.

Lemma date_mask_digits (value : text) :
  filter isDigit (formatDateTyping value) = firstn 8 (filter isDigit value)
  /\ (List.length (firstn 8 (filter isDigit value)) <= 8)%nat.
Proof.
  destruct (kept_digits value) as (E & L & F).
  destruct (built_from_digits _ L F) as (Digits & _).
  unfold formatDateTyping. cbv zeta.
  split; [now rewrite Digits | apply firstn_le_length].
Qed.

(** X18.  The date mask is the same on both pages; it keeps the first
    eight digits of what was typed, in order, and nothing else of it;
    the masked text has at most ten characters, all digits or slashes,
    and exactly ten once eight digits have been typed. *)
Theorem date_mask (value : text) :
  formatDateTyping value = mask value
  /\ filter isDigit (formatDateTyping value) = firstn 8 (filter isDigit value)
  /\ (List.length (formatDateTyping value) <= 10)%nat
  /\ Forall shown (formatDateTyping value)
  /\ ((8 <= List.length (filter isDigit value))%nat ->
      List.length (formatDateTyping value) = 10%nat).
Proof.
  split; [reflexivity |].
  destruct (kept_digits value) as (E & L & F).
  destruct (built_from_digits _ L F) as (Digits & Len & Shown & Full).
  unfold formatDateTyping. cbv zeta.
  split; [now rewrite Digits |]. split; [exact Len |]. split; [exact Shown |].
  intros Eight. apply Full. rewrite E, length_firstn. lia.
Qed.

(** X19.  Masking a masked text changes nothing: retyping into a field
    that already shows a masked date leaves it as it is. *)
Theorem date_mask_idempotent (value : text) :
  formatDateTyping (formatDateTyping value) = formatDateTyping value.
Proof.
  destruct (date_mask_digits value) as (Digits & L).
  unfold formatDateTyping at 1. cbv zeta.
  rewrite slice_prefix by lia. change (Z.to_nat 8) with 8%nat.
  rewrite Digits, firstn_firstn. change (Nat.min 8 8) with 8%nat.
  unfold formatDateTyping. cbv zeta.
  rewrite (slice_prefix (filter isDigit value)) by lia. reflexivity.
Qed.

Import MoreScenarios.

(** Typing the digits of 15/01/2024, with or without separators. *)
Example date_mask_typed :
  formatDateTyping (chars "15012024") = chars "15/01/2024"
  /\ formatDateTyping (chars "15-01-2024 ") = chars "15/01/2024"
  /\ formatDateTyping (chars "150") = chars "15/0"
  /\ formatDateTyping (chars "") = chars "".
Proof. repeat split; vm_compute; reflexivity. Qed.

End DateFieldFacts.

(** ** The annual percentage yield *)

Module YieldFacts.
Import Reference Deposit.

Section ExactArithmetic.
Local Open Scope Qc_scope.

Lemma natQc_nonneg (k : nat) : 0 <= natQc k.
Proof.
  induction k as [| k IH].
  - rewrite DepositFacts.natQc_0. apply Qcle_refl.
  - rewrite DepositFacts.natQc_S.
    replace 0 with (0 + 0) by ring.
    apply Qcplus_le_compat; [exact IH | discriminate].
Qed.

Lemma Qcmult_nonneg (x y : Qc) : 0 <= x -> 0 <= y -> 0 <= x * y.
Proof.
  intros X Y. rewrite <- (Qcmult_0_l y). now apply Qcmult_le_compat_r.
Qed.

Lemma Qcle_plus_nonneg (x y : Qc) : 0 <= y -> x <= x + y.
Proof.
  intros Y. rewrite <- (Qcplus_0_r x) at 1.
  apply Qcplus_le_compat; [apply Qcle_refl | exact Y].
Qed.

Lemma Qcinv_nonneg (y : Qc) : 0 <= y -> 0 <= / y.
Proof.
  unfold Qcle. cbn [this Qcinv Q2Qc]. intros Y.
  change (Qred 0) with 0%Q in *.
  assert (E : (Qred (/ y) == / y)%Q) by apply Qred_correct.
  rewrite E. now apply Qinv_le_0_compat.
Qed.

(** Compounding [k] times at the rate [x >= 0] yields at least [k x]. *)
Lemma compounding_gains (x : Qc) (k : nat) :
  0 <= x -> 1 + natQc k * x <= (1 + x) ^ k.
Proof.
  intros X. induction k as [| k IH]; cbn [Qcpower].
  - rewrite DepositFacts.natQc_0. replace (1 + 0 * x) with 1 by ring.
    apply Qcle_refl.
  - rewrite DepositFacts.natQc_S.
    assert (X1 : 0 <= 1 + x).
    { apply Qcle_trans with 1; [discriminate | now apply Qcle_plus_nonneg]. }
    apply Qcle_trans with ((1 + natQc k * x) * (1 + x)).
    + replace ((1 + natQc k * x) * (1 + x))
        with (1 + (natQc k + 1) * x + natQc k * (x * x)) by ring.
      apply Qcle_plus_nonneg.
      apply Qcmult_nonneg; [apply natQc_nonneg | now apply Qcmult_nonneg].
    + rewrite (Qcmult_comm (1 + x)). now apply Qcmult_le_compat_r.
Qed.

End ExactArithmetic.

Section Handler.
Context {M : MathLib}.

(** X20.  For a finite annual rate [rho] percent: without compounding
    the yield reported is the nominal rate [rho / 100]; with [m]
    compounding periods a year it is [(1 + rho/100/m)^m - 1], which is
    never below the nominal rate when the rate is not negative. *)
Theorem yield_is_at_least_nominal (s : State) (rho : Qc) :
  orZero (rate s) = Fin rho ->
  let res := fst (handleCalc s) in
  let m := compoundsPerYear (comp s) in
  let nominal := (rho / Q2Qc 100)%Qc in
  (m = 0 -> apy res = Fin nominal)
  /\ (0 < m ->
      apy res = Fin ((1 + nominal / Q2Qc (inject_Z m)) ^ Z.to_nat m - 1)%Qc
      /\ ((0 <= rho)%Qc ->
          (nominal <= (1 + nominal / Q2Qc (inject_Z m)) ^ Z.to_nat m - 1)%Qc)).
Proof.
  intros R res m nominal.
  assert (Nom : (orZero (rate s) / 100)%js = Fin nominal).
  { rewrite R. unfold ofZ. rewrite div_Fin; [reflexivity |].
    apply RateFacts.Q2Qc_inject_nonzero. discriminate. }
  assert (A : apy res
              = if m >? 0
                then (Math_pow (1 + Fin nominal / m) m - 1)%js
                else Fin nominal).
  { subst res m. unfold handleCalc. rewrite Nom.
    destruct (paymentMethod s); [reflexivity |].
    destruct (compoundsPerYear (comp s) =? 0); reflexivity. }
  split.
  - intros Z. rewrite A, Z. reflexivity.
  - intros Pos.
    assert (G : (m >? 0) = true) by (apply Z.gtb_lt; lia).
    assert (Mn : Q2Qc (inject_Z m) <> Q2Qc 0)
      by (apply RateFacts.Q2Qc_inject_nonzero; lia).
    split.
    + rewrite A, G. unfold ofZ at 2. rewrite div_Fin by exact Mn.
      rewrite ScheduleFacts.one_plus, ScheduleFacts.Math_pow_nat by lia.
      reflexivity.
    + intros Rho.
      assert (Mq : Q2Qc (inject_Z m) = natQc (Z.to_nat m))
        by (apply DepositFacts.natQc_of_Z; lia).
      assert (X : (0 <= nominal / Q2Qc (inject_Z m))%Qc).
      { unfold Qcdiv. apply Qcmult_nonneg.
        - unfold nominal, Qcdiv. apply Qcmult_nonneg; [exact Rho | discriminate].
        - apply Qcinv_nonneg. rewrite Mq. apply natQc_nonneg. }
      pose proof (compounding_gains _ (Z.to_nat m) X) as Gain.
      rewrite <- Mq in Gain.
      replace (1 + Q2Qc (inject_Z m) * (nominal / Q2Qc (inject_Z m)))%Qc
        with (1 + nominal)%Qc in Gain by (field; exact Mn).
      replace nominal with (1 + nominal + - (1))%Qc at 1 by ring.
      apply Qcplus_le_compat; [exact Gain | apply Qcle_refl].
Qed.

End Handler.

Import Scenarios.

Lemma yield_is_at_least_nominal_witness :
  apy (fst (handleCalc lumpSum))
  = Fin ((1 + Q2Qc 12 / Q2Qc 100 / Q2Qc (inject_Z 12)) ^ 12 - 1)%Qc.
Proof.
  assert (R : orZero (rate lumpSum) = Fin (Q2Qc 12))
    by (apply eqb_eq; vm_compute; reflexivity).
  destruct (yield_is_at_least_nominal lumpSum _ R) as (_ & Compounded).
  destruct Compounded as (A & _); [reflexivity |].
  exact A.
Defined.

End YieldFacts.

(** ** The instalment per month *)

Module MonthlyFacts.
Import DCBCalculator.

Section Handler.
Context {D : DateFns} {M : MathLib}.

(** X21.  For a finite instalment amount, the EMI per month times the
    number of months in an instalment period gives back the instalment
    amount; with one month per instalment (monthly or daily frequency,
    or an unknown one) the two are equal. *)
Theorem emi_per_month (f : FormState) (res : CalculationResults) (e : Qc) :
  handleCalculate f = Some res ->
  instalmentAmount res = Fin e ->
  (emiPerMonth res * getMonthsToAdd (instalmentFreq f))%js = instalmentAmount res
  /\ (getMonthsToAdd (instalmentFreq f) = 1 ->
      emiPerMonth res = instalmentAmount res).
Proof.
  intros H E.
  destruct (DCBFacts.handleCalculate_fields f res H) as (_ & Ei & Ee & _).
  rewrite <- Ei, E in Ee.
  assert (Mn : Q2Qc (inject_Z (getMonthsToAdd (instalmentFreq f))) <> Q2Qc 0).
  { apply RateFacts.Q2Qc_inject_nonzero.
    destruct (RateFacts.months_table (instalmentFreq f)) as (_ & In4).
    cbn [In] in In4. lia. }
  unfold ofZ in Ee. rewrite div_Fin in Ee by exact Mn.
  split.
  - rewrite Ee, E. unfold ofZ. cbn [mul]. apply (f_equal Fin).
    field. exact Mn.
  - intros One. rewrite Ee, E, One. apply (f_equal Fin).
    change (Q2Qc (inject_Z 1)) with 1%Qc. field. discriminate.
Qed.

End Handler.

Import Scenarios.

Lemma emi_per_month_witness :
  exists res,
    handleCalculate fourPaid = Some res
    /\ emiPerMonth res = instalmentAmount res.
Proof.
  destruct (DCBFacts.handleCalculate_completes fourPaid) as (res & E);
    [vm_compute; discriminate |].
  exists res. split; [exact E |].
  destruct (DCBFacts.handleCalculate_fields fourPaid res E) as (_ & Ei & _).
  assert (I : instalment fourPaid
              = Fin (Reference.levelInstalment (Q2Qc 120000) (Q2Qc (1 # 100)) 12))
    by (apply eqb_eq; vm_compute; reflexivity).
  rewrite I in Ei.
  apply (emi_per_month fourPaid res _ E Ei). reflexivity.
Defined.

End MonthlyFacts.
